(** * Resilient streaming-completion client: retry policy and timed runner

    A shallow embedding of three Python modules,

    - [openai-streaming-client/src/error_handler.py]  (module [ErrorHandler]),
    - [.reference/inference_example/inference_request.py]
      (module [InferenceRequest]),
    - [openai-streaming-client/src/main.py]  (module [StreamingClient]),

    together with the properties their specification states about them.

    Python integers are unbounded and are modelled by [Z]; Python strings
    are modelled by [string]; exceptions are a small inductive type; every
    function that has side effects threads an explicit state and records
    the effects it performs, so that their number and order can be
    observed afterwards. *)

From Stdlib Require Import ZArith QArith List String Ascii Bool Lia.
From Stdlib Require Import DecimalString.
From Equations Require Import Equations.
Import ListNotations.

Open Scope string_scope.
Open Scope Z_scope.

(** ** Python values shared by the three modules *)

Module Py.

(** The exception classes the sources name, plus a catch-all for every
    other subclass of Python's [Exception] (connection errors, attribute
    errors and so on).  An instance of a subclass of [RetryableError] is
    caught by [except RetryableError] like an instance of the class itself
    and is represented by [RetryableError]. *)
Inductive exn : Type :=
| RetryableError (msg : string)
| TimeoutException (msg : string)
| ValueError (msg : string)
| OverflowError (msg : string)
| Exception (msg : string)
| OtherError (cls msg : string).

(** [except RetryableError]: does the handler match? *)
Definition isinstance_RetryableError (e : exn) : bool :=
  match e with RetryableError _ => true | _ => false end.

(** [except TimeoutException]: does the handler match? *)
Definition isinstance_TimeoutException (e : exn) : bool :=
  match e with TimeoutException _ => true | _ => false end.

(** [str(e)] for an exception built from one message argument. *)
Definition str_exn (e : exn) : string :=
  match e with
  | RetryableError m | TimeoutException m | ValueError m
  | OverflowError m | Exception m | OtherError _ m => m
  end.

(** [str(n)] for an integer, as an f-string formats it. *)
Definition str_int (n : Z) : string := NilZero.string_of_int (Z.to_int n).

(** [str(v)] for a value that is a string or [None]. *)
Definition str_opt (v : option string) : string :=
  match v with Some s => s | None => "None" end.

(** The line feed, written [\n] in the sources. *)
Definition LF : string := String (ascii_of_nat 10) EmptyString.

(** [''.join(pieces)]. *)
Fixpoint join (pieces : list string) : string :=
  match pieces with
  | [] => EmptyString
  | piece :: rest => piece ++ join rest
  end.

(** Does the decimal digit character occur in the text? *)
Definition is_digit (c : ascii) : bool :=
  let n := nat_of_ascii c in (48 <=? n)%nat && (n <=? 57)%nat.

Fixpoint has_digit (s : string) : bool :=
  match s with
  | EmptyString => false
  | String c s' => is_digit c || has_digit s'
  end.

End Py.

(** ** error_handler.py: retry with exponential backoff *)

Module ErrorHandler.
Import Py.

(** What the wrapper does to the outside world, in order. *)
Inductive Event : Type :=
| EvCall                    (* func() *)
| EvWarning (msg : string)  (* logging.warning(msg) *)
| EvSleep (seconds : Z).    (* time.sleep(seconds) *)

(** How a call ends: by returning a value or by raising. *)
Inductive Outcome (T : Type) : Type :=
| Returns (v : T)
| Raises (e : exn).
Arguments Returns {T} v.
Arguments Raises {T} e.

(** A finished run of [retry_with_backoff]: how it ended, what it did,
    the state it left the operation's world in, and the value of the
    local counter [retries] when it exited. *)
Record Run (W T : Type) : Type := mkRun {
  outcome : Outcome T;
  trace : list Event;
  world : W;
  retries_at_exit : Z
}.
Arguments mkRun {W T}.
Arguments outcome {W T}.
Arguments trace {W T}.
Arguments world {W T}.
Arguments retries_at_exit {W T}.

(** Put events in front of what the rest of the run did. *)
Definition after {W T} (evs : list Event) (r : Run W T) : Run W T :=
  mkRun (outcome r) (evs ++ trace r) (world r) (retries_at_exit r).

(** The two message literals of the source.  Neither is an f-string:
    the braces are part of the text. *)
Definition warning_message : string := "Attempt {retries + 1} failed: {error}".
Definition exhausted_message : string :=
  "Function failed after {max_retries} attempts".

(** [time.sleep(seconds)] turns its argument into a count of nanoseconds
    that must fit 64 bits, and raises [OverflowError] when it does not;
    then it raises [ValueError] on a negative argument.  For a whole
    number of seconds the count fits exactly up to [sleep_max]. *)
Definition sleep_max : Z := 9223372036.
Definition sleep_overflow : exn :=
  OverflowError "timestamp too large to convert to C _PyTime_t".
Definition sleep_error : exn := ValueError "sleep length must be non-negative".

(** The exception [time.sleep(seconds)] raises, if it raises one. *)
Definition sleep_rejects (seconds : Z) : option exn :=
  if (seconds <? - sleep_max) || (sleep_max <? seconds) then Some sleep_overflow
  else if seconds <? 0 then Some sleep_error
  else None.

Section Retry.
Context {W T : Type}.

(** The operation [func]: a zero-argument callable whose behaviour may
    depend on, and change, a world [W] of its own. *)
Variable func : W -> Outcome T * W.
Variables max_retries max_delay : Z.

(** The [while retries < max_retries] loop, entered with the current
    values of the locals [retries] and [delay]. *)
Equations? loop (retries delay : Z) (w : W) : Run W T
  by wf (Z.to_nat (max_retries - retries)) lt :=
loop retries delay w with Z_lt_dec retries max_retries := {
  | right _ => mkRun (Raises (Exception exhausted_message)) [] w retries
  | left _ with func w := {
    | (Returns v, w1) => mkRun (Returns v) [EvCall] w1 retries
    | (Raises error, w1) with isinstance_RetryableError error := {
      | false => mkRun (Raises error) [EvCall] w1 retries
      | true with sleep_rejects delay := {
        | Some sleep_exception =>
            mkRun (Raises sleep_exception)
                  [EvCall; EvWarning warning_message] w1 retries
        | None =>
            after [EvCall; EvWarning warning_message; EvSleep delay]
                  (loop (retries + 1) (Z.min (delay * 2) max_delay) w1)
        } } } }.
Proof. lia. Qed.

End Retry.

(** [retry_with_backoff(func, max_retries, base_delay, max_delay)], run in
    the world [w]: [retries = 0], [delay = base_delay], then the loop. *)
Definition retry_with_backoff {W T} (func : W -> Outcome T * W)
           (max_retries base_delay max_delay : Z) (w : W) : Run W T :=
  loop func max_retries max_delay 0 base_delay w.

(** The operation fails with a retryable error in every world it can
    reach from a world that satisfies [Inv]. *)
Definition fails_retryably_on {W T} (func : W -> Outcome T * W)
           (Inv : W -> Prop) : Prop :=
  forall w, Inv w ->
    exists error w1,
      func w = (Raises error, w1)
      /\ isinstance_RetryableError error = true /\ Inv w1.

(** The defaults of the signature. *)
Definition default_max_retries : Z := 3.
Definition default_base_delay : Z := 1.
Definition default_max_delay : Z := 60.

(** *** Observations on a trace *)

Definition is_call (e : Event) : bool :=
  match e with EvCall => true | _ => false end.

(** How many times the operation was invoked. *)
Definition calls (tr : list Event) : Z := Z.of_nat (List.length (filter is_call tr)).

(** The delays slept, in order. *)
Fixpoint sleeps (tr : list Event) : list Z :=
  match tr with
  | [] => []
  | EvSleep d :: tr' => d :: sleeps tr'
  | _ :: tr' => sleeps tr'
  end.

(** For each invocation of the operation, in order, the delays slept
    since the previous invocation (since the start for the first one);
    [pending] holds the delays seen and not yet attributed. *)
Fixpoint attempt_delays_from (pending : list Z) (tr : list Event) : list (list Z) :=
  match tr with
  | [] => []
  | EvCall :: tr' => pending :: attempt_delays_from [] tr'
  | EvSleep d :: tr' => attempt_delays_from (pending ++ [d]) tr'
  | EvWarning _ :: tr' => attempt_delays_from pending tr'
  end.

Definition attempt_delays (tr : list Event) : list (list Z) :=
  attempt_delays_from [] tr.

(** The delays slept just before attempt [n], attempts counted from 1;
    [None] when the run made fewer than [n] attempts. *)
Definition delays_before_attempt (tr : list Event) (n : nat) : option (list Z) :=
  match n with
  | O => None
  | S k => nth_error (attempt_delays tr) k
  end.

(** The value of the local [delay] after [k] failed attempts. *)
Fixpoint backoff (max_delay delay : Z) (k : nat) : Z :=
  match k with
  | O => delay
  | S k' => backoff max_delay (Z.min (delay * 2) max_delay) k'
  end.

(** The events of [n] consecutive failed attempts, the first of which
    sleeps [delay]. *)
Fixpoint failed_attempts (max_delay delay : Z) (n : nat) : list Event :=
  match n with
  | O => []
  | S n' =>
      [EvCall; EvWarning warning_message; EvSleep delay]
        ++ failed_attempts max_delay (Z.min (delay * 2) max_delay) n'
  end.

(** *** Two sample operations *)

(** Fails with a retryable error on every call. *)
Definition always_retryable : unit -> Outcome nat * unit :=
  fun w => (Raises (RetryableError "transient"), w).

(** Fails with a retryable error while the counter is positive, then
    returns 42. *)
Definition fails_then_succeeds : nat -> Outcome nat * nat :=
  fun w =>
    match w with
    | O => (Returns 42%nat, O)
    | S k => (Raises (RetryableError "transient"), k)
    end.

(** Fails with an error that is not retryable. *)
Definition always_fatal : unit -> Outcome nat * unit :=
  fun w => (Raises (OtherError "KeyError" "missing"), w).

End ErrorHandler.

(** ** The completion capability: the objects the OpenAI client hands out *)

Module OpenAI.
Import Py.

(** [chunk.choices[i].delta], with its optional [content]. *)
Record ChoiceDelta : Type := mkDelta { content : option string }.

(** [chunk.choices[i]], with its optional [delta]. *)
Record Choice : Type := mkChoice { delta : option ChoiceDelta }.

(** One streamed chunk: an object with a list [choices], or an object on
    which reading [choices] raises. *)
Inductive Chunk : Type :=
| ChunkObj (choices : list Choice)
| Malformed (e : exn).

(** What can interfere with a consumer while it handles a chunk it has
    received.  Neither is decided by the consumer's code, only by the
    clock and by the text received, so it is recorded with the item.

    [AlarmBeforeLine line]: the alarm signal arrives, and its handler
    runs, just before the statement at that line of the loop body of
    [inference_request.py] (lines 46 to 51) is executed.  A line that
    the body does not get to, or that is not one of its lines, is a
    moment that never comes: nothing happens then.

    [WriteRaises e]: writing the text to the response file raises [e].
    [response_file.write] does so with [UnicodeEncodeError] on a text that
    UTF-8 cannot encode (a lone surrogate); the strings of this model
    cannot hold such a text, so the chunk's text stands for it. *)
Inductive Trouble : Type :=
| AlarmBeforeLine (line : Z)
| WriteRaises (e : exn).

(** What one [next()] on the response iterator does, besides signalling
    the end of the stream: it yields a chunk, raises, or blocks because
    the peer sends nothing more.  [Deliver chunk] is a chunk that the
    consumer handles with nothing interfering; [Disturbed chunk trouble]
    is a chunk during whose handling [trouble] occurs. *)
Inductive Item : Type :=
| Deliver (chunk : Chunk)
| Disturbed (chunk : Chunk) (trouble : Trouble)
| Fail (e : exn)
| Stall.

(** The request of [chat.completions.create]: one user message. *)
Record Request : Type := mkRequest {
  model : option string;
  prompt : string;
  temperature : option Q;
  stream : bool
}.

(** What [chat.completions.create] does: it returns a response iterator
    (the items its successive [next()] calls produce, then the end of the
    stream), raises, or blocks while the connection is being set up. *)
Inductive CreateResult : Type :=
| Response (items : list Item)
| CreateFails (e : exn)
| CreateStalls.

(** The client object. *)
Record Client : Type := mkClient {
  _base_url : string;
  chat_completions_create : Request -> CreateResult
}.

(** A well-formed chunk that carries one piece of text. *)
Definition text_chunk (s : string) : Chunk :=
  ChunkObj [mkChoice (Some (mkDelta (Some s)))].

(** The text a chunk delivers, if it delivers any: the [content] of the
    [delta] of its first choice. *)
Definition fragment_of (chunk : Chunk) : option string :=
  match chunk with
  | ChunkObj (mkChoice (Some (mkDelta (Some s))) :: _) => Some s
  | _ => None
  end.

(** The pieces of text a list of chunks delivers, in arrival order. *)
Fixpoint fragments (chunks : list Chunk) : list string :=
  match chunks with
  | [] => []
  | c :: cs =>
      match fragment_of c with
      | Some s => s :: fragments cs
      | None => fragments cs
      end
  end.

(** Python's truth value of a string. *)
Definition truthy (s : string) : bool :=
  match s with EmptyString => false | _ => true end.

End OpenAI.

(** ** inference_request.py: the timed streaming runner

    The model covers the exceptions that come from the completion
    capability (the request and every [next()] on the response), from a
    chunk whose attributes cannot be read, from [signal.alarm], from
    [response_file.write], and from the alarm signal.  The alarm is
    one-shot: its handler raises [TimeoutException] where the runner is
    when the signal arrives, which is in a [next()] or in the request
    when the peer is silent, or at one of the statements of the loop body
    when the item says so.  [open], [flush] and [print] are taken not to
    raise. *)

Module InferenceRequest.
Import Py OpenAI.

(** Everything the module does to the outside world. *)
Inductive IOEvent : Type :=
| Print (text : string)       (* print(...): the characters written to stdout *)
| StdoutFlush                 (* sys.stdout.flush() or print(..., flush=True) *)
| PrintExc                    (* traceback.print_exc() *)
| SigAlarm (seconds : Z)      (* signal.alarm(seconds) *)
| FileOpen                    (* open(response.txt, "w") *)
| FileWrite (text : string)   (* response_file.write(text) *)
| FileFlush                   (* response_file.flush() *)
| FileClose                   (* leaving the with block *)
| NetCreate (req : Request)   (* client.chat.completions.create(...) *)
| NetNext.                    (* one next() on the response iterator *)

(** The durable sink [response.txt]: what has reached the disk, and what
    was written and still sits in the file object's buffer. *)
Record File : Type := mkFile {
  durable : string;
  buffer : string;
  is_open : bool
}.

(** The state the runner works on: its local accumulator
    [full_response], the sink, the pending alarm (with the [seconds] its
    handler reports), and the log of effects, most recent first. *)
Record St : Type := mkSt {
  full_response : string;
  response_file : File;
  alarm : option Z;
  log : list IOEvent
}.

(** *** A state monad with Python's control flow *)

(** A statement completes, raises, executes [return v], or blocks for
    ever. *)
Inductive Res (A : Type) : Type :=
| Ok (a : A)
| Raise (e : exn)
| Return (v : option string)
| Hang.
Arguments Ok {A} a.
Arguments Raise {A} e.
Arguments Return {A} v.
Arguments Hang {A}.

Definition M (A : Type) : Type := St -> Res A * St.

Definition ret {A} (a : A) : M A := fun st => (Ok a, st).

Definition bind {A B} (m : M A) (k : A -> M B) : M B :=
  fun st =>
    match m st with
    | (Ok a, st1) => k a st1
    | (Raise e, st1) => (Raise e, st1)
    | (Return v, st1) => (Return v, st1)
    | (Hang, st1) => (Hang, st1)
    end.

Declare Scope py_scope.
Delimit Scope py_scope with py.
Notation "x <- m ;; k" := (bind m (fun x => k))
  (at level 61, m at next level, right associativity) : py_scope.
Notation "m ;; k" := (bind m (fun _ => k))
  (at level 61, right associativity) : py_scope.
Open Scope py_scope.

Definition raise {A} (e : exn) : M A := fun st => (Raise e, st).
Definition return_ {A} (v : option string) : M A := fun st => (Return v, st).

(** [try: body  except <matches> as e: handler e]. *)
Definition try_except {A} (body : M A) (matches : exn -> bool)
           (handler : exn -> M A) : M A :=
  fun st =>
    match body st with
    | (Raise e, st1) => if matches e then handler e st1 else (Raise e, st1)
    | r => r
    end.

(** [try: body  finally: cleanup], for a cleanup that cannot fail.  A
    body that blocks for ever never reaches the cleanup. *)
Definition try_finally {A} (body : M A) (cleanup : St -> St) : M A :=
  fun st =>
    match body st with
    | (Hang, st1) => (Hang, st1)
    | (r, st1) => (r, cleanup st1)
    end.

Definition emit (e : IOEvent) (st : St) : St :=
  mkSt (full_response st) (response_file st) (alarm st) (e :: log st).

Definition do (e : IOEvent) : M unit := fun st => (Ok tt, emit e st).

(** *** stdout *)

(** [print(text)] and [print(text, end='')]. *)
Definition print (text : string) : M unit := do (Print (text ++ LF)).
Definition print_end_empty (text : string) : M unit := do (Print text).
Definition stdout_flush : M unit := do StdoutFlush.
Definition print_exc : M unit := do PrintExc.

(** *** The sink *)

Definition set_file (f : File) (st : St) : St :=
  mkSt (full_response st) f (alarm st) (log st).

(** [open(path, "w")] truncates. *)
Definition file_open : M unit := fun st =>
  (Ok tt, emit FileOpen (set_file (mkFile EmptyString EmptyString true) st)).

Definition file_write (text : string) : M unit := fun st =>
  let f := response_file st in
  (Ok tt, emit (FileWrite text)
               (set_file (mkFile (durable f) (buffer f ++ text) (is_open f)) st)).

Definition flushed (f : File) : File :=
  mkFile (durable f ++ buffer f) EmptyString (is_open f).

Definition file_flush : M unit := fun st =>
  (Ok tt, emit FileFlush (set_file (flushed (response_file st)) st)).

Definition file_close (st : St) : St :=
  let f := flushed (response_file st) in
  emit FileClose (set_file (mkFile (durable f) (buffer f) false) st).

(** [with open(...) as response_file: body]. *)
Definition with_open {A} (body : M A) : M A :=
  file_open ;; try_finally body file_close.

(** *** The accumulator *)

Definition set_full_response (s : string) : M unit := fun st =>
  (Ok tt, mkSt s (response_file st) (alarm st) (log st)).

Definition get_full_response : M string := fun st => (Ok (full_response st), st).

(** *** The deadline: [signal.alarm] and the [timeout] context manager *)

Definition set_alarm (a : option Z) (st : St) : St :=
  mkSt (full_response st) (response_file st) a (log st).

Definition INT_MIN : Z := - 2 ^ 31.
Definition INT_MAX : Z := 2 ^ 31 - 1.

(** [signal.alarm(seconds)] with the handler of [timeout(seconds)]
    installed: the argument must fit a C int; zero cancels the pending
    alarm, anything else arms one. *)
Definition fits_C_int (n : Z) : bool := (INT_MIN <=? n) && (n <=? INT_MAX).

Definition signal_alarm (seconds : Z) : M unit := fun st =>
  if fits_C_int seconds
  then (Ok tt, emit (SigAlarm seconds)
                    (set_alarm (if seconds =? 0 then None else Some seconds) st))
  else (Raise (OverflowError "Python int too large to convert to C int"), st).

(** [signal.alarm(0)] in the [finally] of [timeout]. *)
Definition cancel_alarm (st : St) : St := emit (SigAlarm 0) (set_alarm None st).

(** [_handle_timeout]'s exception. *)
Definition timeout_exception (seconds : Z) : exn :=
  TimeoutException ("Timeout after " ++ str_int seconds ++ " seconds").

(** The alarm signal arrives: if an alarm is pending, it is used up and
    [_handle_timeout] raises at this point; if none is pending, there is
    no signal. *)
Definition alarm_goes_off : M unit := fun st =>
  match alarm st with
  | Some seconds => (Raise (timeout_exception seconds), set_alarm None st)
  | None => (Ok tt, st)
  end.

(** Waiting for something that never comes. *)
Definition hang {A} : M A := fun st => (Hang, st).

(** The runner is blocked on the channel and nothing arrives: a pending
    alarm goes off and its handler raises; with no alarm pending the
    wait never ends. *)
Definition blocked {A} : M A := alarm_goes_off ;; hang.

(** [with timeout(seconds): body]. *)
Definition timeout {A} (seconds : Z) (body : M A) : M A :=
  signal_alarm seconds ;; try_finally body cancel_alarm.

(** *** The channel *)

Definition create (client : Client) (req : Request) : M (list Item) :=
  do (NetCreate req) ;;
  match chat_completions_create client req with
  | Response items => ret items
  | CreateFails e => raise e
  | CreateStalls => blocked
  end.

(** Reading [chunk.choices]. *)
Definition get_choices (chunk : Chunk) : M (list Choice) :=
  match chunk with
  | ChunkObj choices => ret choices
  | Malformed e => raise e
  end.

(** The statement at source line [line] is about to be executed: the
    alarm goes off here when the trouble of this turn says so. *)
Definition at_line (trouble : option Trouble) (line : Z) : M unit :=
  match trouble with
  | Some (AlarmBeforeLine line') =>
      if line' =? line then alarm_goes_off else ret tt
  | _ => ret tt
  end.

(** [response_file.write(text)] in a turn with that trouble. *)
Definition response_file_write (trouble : option Trouble) (text : string)
  : M unit :=
  match trouble with
  | Some (WriteRaises e) => raise e
  | _ => file_write text
  end.

(** The body of the [for] loop, lines 45 to 54: the inner [try] with its
    handler, which catches every [Exception], [TimeoutException]
    included. *)
Definition process_chunk (trouble : option Trouble) (chunk : Chunk) : M unit :=
  try_except
    (at_line trouble 46 ;;
     choices <- get_choices chunk ;;
     match choices with
     | mkChoice (Some (mkDelta (Some chunk_content))) :: _ =>
         if truthy chunk_content then
           at_line trouble 47 ;;
           at_line trouble 48 ;;
           st_full <- get_full_response ;;
           set_full_response (st_full ++ chunk_content) ;;
           at_line trouble 49 ;;
           response_file_write trouble chunk_content ;;
           at_line trouble 50 ;;
           file_flush ;;
           at_line trouble 51 ;;
           print_end_empty chunk_content ;;
           stdout_flush
         else ret tt
     | _ => ret tt
     end)
    (fun _ => true)
    (fun chunk_error =>
       print (LF ++ "Error processing chunk: " ++ str_exn chunk_error) ;;
       print_exc).

(** One turn of [for chunk in completion]: a [next()], then the body. *)
Definition iteration (item : Item) : M unit :=
  do NetNext ;;
  match item with
  | Deliver chunk => process_chunk None chunk
  | Disturbed chunk trouble => process_chunk (Some trouble) chunk
  | Fail e => raise e
  | Stall => blocked
  end.

(** [for chunk in completion: ...]; the last [next()] finds the end of
    the stream. *)
Fixpoint for_chunk_in (completion : list Item) : M unit :=
  match completion with
  | [] => do NetNext
  | item :: rest => iteration item ;; for_chunk_in rest
  end.

(** The name of an exception's class, as [type(e)] prints it. *)
Definition class_name (e : exn) : string :=
  match e with
  | RetryableError _ => "RetryableError"
  | TimeoutException _ => "TimeoutException"
  | ValueError _ => "ValueError"
  | OverflowError _ => "OverflowError"
  | Exception _ => "Exception"
  | OtherError cls _ => cls
  end.

(** The three prints the function starts with. *)
Definition header (client : Client) (model : option string) : M unit :=
  print (LF ++ "--- Streaming Response from " ++ str_opt model ++ " ---") ;;
  print ("Base URL: " ++ _base_url client) ;;
  stdout_flush.

(** The handler [except TimeoutException]. *)
Definition on_timeout (timeout_seconds : Z) : exn -> M unit :=
  fun _ =>
    print (LF ++ "--- Timeout after " ++ str_int timeout_seconds
              ++ " seconds ---") ;;
    stdout_flush ;;
    return_ None.

(** The outer handler [except Exception as e]. *)
Definition on_error : exn -> M unit :=
  fun e =>
    print (LF ++ "Full Error Details:") ;;
    print ("Error Type: <class '" ++ class_name e ++ "'>") ;;
    print ("Error Message: " ++ str_exn e) ;;
    print_exc ;;
    stdout_flush ;;
    return_ None.

(** The statements of [create_completion], as one monadic block. *)
Definition create_completion_body (client : Client) (model : option string)
           (prompt : string) (temperature : Q) (stream : bool)
           (timeout_seconds : Z) : M unit :=
  try_except
    (header client model ;;
     set_full_response EmptyString ;;
     with_open
       (try_except
          (timeout timeout_seconds
             (completion <-
                create client (mkRequest model prompt (Some temperature) stream) ;;
              for_chunk_in completion ;;
              print (LF ++ "--- Stream Complete ---") ;;
              stdout_flush))
          isinstance_TimeoutException
          (on_timeout timeout_seconds)) ;;
     st_full <- get_full_response ;;
     return_ (Some st_full))
    (fun _ => true)
    on_error.

(** How a call of a function of this module ends. *)
Inductive Exit : Type :=
| Returned (v : option string)   (* a string, or None *)
| Propagated (e : exn)           (* an exception leaves the function *)
| Blocked.                       (* the call never returns *)

Definition call (body : M unit) (st : St) : Exit * St :=
  match body st with
  | (Ok _, st1) => (Returned None, st1)
  | (Return v, st1) => (Returned v, st1)
  | (Raise e, st1) => (Propagated e, st1)
  | (Hang, st1) => (Blocked, st1)
  end.

Definition create_completion (client : Client) (model : option string)
           (prompt : string) (temperature : Q) (stream : bool)
           (timeout_seconds : Z) (st : St) : Exit * St :=
  call (create_completion_body client model prompt temperature stream
                               timeout_seconds) st.

(** The defaults of the signature. *)
Definition default_temperature : Q := 6 # 10.
Definition default_stream : bool := true.
Definition default_timeout_seconds : Z := 60.


(** *** The prompt and the entry point *)

(** The characters [str.strip()] removes, among the code points below
    256: those for which [str.isspace] holds. *)
Definition isspace (c : ascii) : bool :=
  let n := nat_of_ascii c in
  ((9 <=? n) && (n <=? 13) || (28 <=? n) && (n <=? 32)
   || (n =? 133) || (n =? 160))%nat.

Fixpoint lstrip (s : string) : string :=
  match s with
  | EmptyString => EmptyString
  | String c s' => if isspace c then lstrip s' else s
  end.

Fixpoint rstrip (s : string) : string :=
  match s with
  | EmptyString => EmptyString
  | String c s' =>
      match rstrip s' with
      | EmptyString => if isspace c then EmptyString else String c EmptyString
      | t => String c t
      end
  end.

Definition strip (s : string) : string := rstrip (lstrip s).

(** What the process finds around it: the three environment variables,
    the prompt file (its text, or the error that reading it raises), and
    the service behind the client. *)
Record Env : Type := mkEnv {
  INFERENCE_API_KEY : option string;
  INFERENCE_API_BASE_URL : option string;
  INFERENCE_API_MODEL : option string;
  prompt_txt : exn + string;
  service : Request -> CreateResult
}.

(** [get_prompt()]: the stripped text of the prompt file, or [None] when
    reading it raises. *)
Definition get_prompt (env : Env) : M (option string) :=
  match prompt_txt env with
  | inr text => ret (Some (strip text))
  | inl e =>
      print ("Error reading prompt: " ++ str_exn e) ;;
      print_exc ;;
      ret None
  end.

(** [value[:4]] on the result of [os.getenv]. *)
Definition first_four (value : option string) : M string :=
  match value with
  | Some s => ret (substring 0 4 s)
  | None => raise (OtherError "TypeError" "'NoneType' object is not subscriptable")
  end.

(** [OpenAI(api_key=..., base_url=...)]: without a base URL the client
    uses the library's default. *)
Definition OpenAI_ (base_url : option string)
           (svc : Request -> CreateResult) : Client :=
  mkClient (match base_url with
            | Some u => u
            | None => "https://api.openai.com/v1/"
            end) svc.

Definition main_body (env : Env) : M unit :=
  try_except
    (print "Environment Variables:" ;;
     key4 <- first_four (INFERENCE_API_KEY env) ;;
     print ("API Key: " ++ key4 ++ "...") ;;
     print ("Base URL: " ++ str_opt (INFERENCE_API_BASE_URL env)) ;;
     print ("Model: " ++ str_opt (INFERENCE_API_MODEL env)) ;;
     stdout_flush ;;
     let openai := OpenAI_ (INFERENCE_API_BASE_URL env) (service env) in
     let model := INFERENCE_API_MODEL env in
     prompt <- get_prompt env ;;
     match prompt with
     | None => print "Error: Prompt is empty" ;; return_ None
     | Some prompt =>
         print (LF ++ "Prompt Length: "
                   ++ str_int (Z.of_nat (String.length prompt))
                   ++ " characters") ;;
         stdout_flush ;;
         completion <-
           (fun st =>
              match create_completion openai model prompt default_temperature
                                      default_stream 900 st with
              | (Returned v, st1) => (Ok v, st1)
              | (Propagated e, st1) => (Raise e, st1)
              | (Blocked, st1) => (Hang, st1)
              end) ;;
         match completion with
         | None => print "Error: No completion generated" ;; return_ None
         | Some _ => ret tt
         end
     end)
    (fun _ => true)
    (fun e =>
       print ("Unexpected error: " ++ str_exn e) ;;
       print_exc ;;
       stdout_flush).

Definition main (env : Env) (st : St) : Exit * St := call (main_body env) st.

(** *** Observations *)

Definition is_next (e : IOEvent) : bool :=
  match e with NetNext => true | _ => false end.

Definition request_of (e : IOEvent) : list Request :=
  match e with NetCreate req => [req] | _ => [] end.

(** The requests sent to the completion capability, in order. *)
Definition requests (st : St) : list Request :=
  rev (flat_map request_of (log st)).

(** How many times the response iterator was asked for its next item. *)
Definition pulls (st : St) : nat := List.length (filter is_next (log st)).

(** The sink holds exactly the accumulator, and nothing is waiting in
    the file object's buffer. *)
Definition in_sync (st : St) : Prop :=
  durable (response_file st) = full_response st
  /\ buffer (response_file st) = EmptyString.

(** The states at the successive points of stream consumption: the state
    the loop is entered in, and the state after each turn of the loop,
    up to the turn that leaves the loop. *)
Fixpoint consumption_points (completion : list Item) (st : St) : list St :=
  st ::
  match completion with
  | [] => []
  | item :: rest =>
      match iteration item st with
      | (Ok _, st1) => consumption_points rest st1
      | (_, st1) => [st1]
      end
  end.

(** The statements [create_completion] executes up to the [for] loop;
    when none of them raises, the result is the response iterator and the
    state in which the loop is entered. *)
Definition before_loop (client : Client) (model : option string)
           (prompt : string) (temperature : Q) (stream : bool)
           (timeout_seconds : Z) : M (list Item) :=
  header client model ;;
  set_full_response EmptyString ;;
  file_open ;;
  signal_alarm timeout_seconds ;;
  create client (mkRequest model prompt (Some temperature) stream).

(** What [create_completion] does once the loop has ended the way
    [loop_result] says: the rest of the [with timeout] block, and the
    handlers and context managers around it. *)
Definition after_loop (timeout_seconds : Z) (loop_result : M unit) : M unit :=
  try_except
    (try_finally
       (try_except
          (try_finally
             (loop_result ;;
              print (LF ++ "--- Stream Complete ---") ;;
              stdout_flush)
             cancel_alarm)
          isinstance_TimeoutException
          (on_timeout timeout_seconds))
       file_close ;;
     st_full <- get_full_response ;;
     return_ (Some st_full))
    (fun _ => true)
    on_error.

(** The states at the points of stream consumption of a whole call: none
    when the call does not get as far as the loop. *)
Definition consumption_states (client : Client) (model : option string)
           (prompt : string) (temperature : Q) (stream : bool)
           (timeout_seconds : Z) (st : St) : list St :=
  match before_loop client model prompt temperature stream timeout_seconds st with
  | (Ok completion, st1) => consumption_points completion st1
  | _ => []
  end.

(** Two states that differ in their logs at most. *)
Definition same_core (st st' : St) : Prop :=
  full_response st = full_response st'
  /\ response_file st = response_file st'
  /\ alarm st = alarm st'.

(** The text of a chunk as the loop body sees it: empty when the chunk
    delivers none. *)
Definition text_of (chunk : Chunk) : string :=
  match fragment_of chunk with Some s => s | None => EmptyString end.

(** From [st] to [st'] the response iterator was asked [n] times, the
    accumulator has grown by [text], sink and accumulator agree again, and
    neither the alarm nor the file handle was touched and no request was
    sent. *)
Definition advanced (n : nat) (text : string) (st st' : St) : Prop :=
  full_response st' = full_response st ++ text
  /\ in_sync st'
  /\ alarm st' = alarm st
  /\ is_open (response_file st') = is_open (response_file st)
  /\ pulls st' = (pulls st + n)%nat
  /\ requests st' = requests st.


(** *** Sample surroundings *)

(** A state in which nothing has happened yet. *)
Definition fresh : St :=
  mkSt EmptyString (mkFile EmptyString EmptyString false) None [].

(** A service that streams three pieces and ends the stream. *)
Definition hello_world : Request -> CreateResult :=
  fun _ => Response [Deliver (text_chunk "Hello"); Deliver (text_chunk ", ");
                     Deliver (text_chunk "world")].

(** A service that streams one piece and then goes silent. *)
Definition hel_then_stall : Request -> CreateResult :=
  fun _ => Response [Deliver (text_chunk "Hel"); Stall].

(** A service that goes silent at once. *)
Definition stalls_at_once : Request -> CreateResult :=
  fun _ => Response [Stall].

(** A service that cannot be reached. *)
Definition unreachable : Request -> CreateResult :=
  fun _ => CreateFails (OtherError "APIConnectionError" "Connection error.").

Definition local_client (svc : Request -> CreateResult) : Client :=
  mkClient "http://localhost:8000/v1" svc.

(** A process whose prompt file holds only blanks and a line feed. *)
Definition blank_prompt_env : Env :=
  mkEnv (Some "sk-test-0000") None (Some "test-model") (inr ("  " ++ LF))
        hello_world.

End InferenceRequest.
(** ** main.py: the generator-based streaming client *)

Module StreamingClient.
Import Py OpenAI.

(** What a generator does when it is run to its end: the values it
    yields in order, the lines it prints, and whether it finishes (it
    does not when it blocks on the channel: this module sets no
    deadline). *)
Record Generated : Type := mkGenerated {
  yielded : list (option string);
  printed : list string;
  finishes : bool
}.

(** The generator yields [v] and goes on as [g]. *)
Definition yield (v : option string) (g : Generated) : Generated :=
  mkGenerated (v :: yielded g) (printed g) (finishes g).

(** The message literal of the handler; it is not an f-string. *)
Definition stream_error_message : string := "Error in stream completion: {e}".

(** The handler [except Exception as e]: print, yield [None], stop. *)
Definition handler : Generated :=
  mkGenerated [None] [stream_error_message ++ LF] true.

(** [chunk.choices[0].delta.get('content')]. *)
Definition get_content (chunk : Chunk) : exn + option string :=
  match chunk with
  | Malformed e => inl e
  | ChunkObj [] => inl (OtherError "IndexError" "list index out of range")
  | ChunkObj (mkChoice None :: _) =>
      inl (OtherError "AttributeError"
                      "'NoneType' object has no attribute 'get'")
  | ChunkObj (mkChoice (Some d) :: _) => inr (content d)
  end.

(** [for chunk in response: if ...: yield ...] inside the [try].  This
    module arms no alarm and writes no file: the troubles of a disturbed
    item do not exist here, and its chunk is handled like any other. *)
Fixpoint for_chunk_in (response : list Item) : Generated :=
  match response with
  | [] => mkGenerated [] [] true
  | Deliver chunk :: rest | Disturbed chunk _ :: rest =>
      match get_content chunk with
      | inl _ => handler
      | inr (Some text) =>
          if truthy text then yield (Some text) (for_chunk_in rest)
          else for_chunk_in rest
      | inr None => for_chunk_in rest
      end
  | Fail _ :: _ => handler
  | Stall :: _ => mkGenerated [] [] false
  end.

Definition default_model : string := "gpt-3.5-turbo".

(** [OpenAIClient.stream_completion(prompt, model)], over the service
    that [openai.ChatCompletion.create] reaches. *)
Definition stream_completion (svc : Request -> CreateResult)
           (prompt model : string) : Generated :=
  match svc (mkRequest (Some model) prompt None true) with
  | Response response => for_chunk_in response
  | CreateFails _ => handler
  | CreateStalls => mkGenerated [] [] false
  end.

(** What the loop of [main] echoes: every yielded value that is truthy,
    with [end=''], so the pieces are joined. *)
Fixpoint echoed (values : list (option string)) : string :=
  match values with
  | [] => EmptyString
  | Some text :: rest => if truthy text then text ++ echoed rest else echoed rest
  | None :: rest => echoed rest
  end.

(** [OpenAIClient()]: the constructor insists on an API key. *)
Definition OpenAIClient (api_key : option string) : exn + unit :=
  match api_key with
  | Some (String _ _) => inr tt
  | _ => inl (ValueError "No OpenAI API key found. Please set OPENAI_API_KEY.")
  end.

(** [main()]: the exception that leaves it, or everything it writes to
    stdout (the header, then the echoed pieces) and whether it ends. *)
Definition main (api_key : option string) (svc : Request -> CreateResult)
  : exn + (string * bool) :=
  match OpenAIClient api_key with
  | inl e => inl e
  | inr _ =>
      let prompt := "Explain quantum computing in simple terms" in
      let g := stream_completion svc prompt default_model in
      inr ("Streaming response:" ++ LF
             ++ echoed (yielded g) ++ join (printed g),
           finishes g)
  end.

End StreamingClient.

(** ** Further observations on runs

    Vocabulary for the properties of whole runs stated further down. *)

From Stdlib Require Import Sorted.

Module RetryRuns.
Import Py ErrorHandler.



(** The time slept during a run, all delays added up. *)
Definition total_slept (tr : list Event) : Z := fold_right Z.add 0 (sleeps tr).


End RetryRuns.

Module RunnerRuns.
Import Py OpenAI InferenceRequest.

(** The chunks a response delivers before its first item that is not a
    chunk, and the items from that one on. *)
Fixpoint leading_chunks (items : list Item) : list Chunk :=
  match items with
  | Deliver chunk :: rest => chunk :: leading_chunks rest
  | _ => []
  end.

Fixpoint after_leading (items : list Item) : list Item :=
  match items with
  | Deliver _ :: rest => after_leading rest
  | _ => items
  end.

(** Nothing interferes with the turns of the loop: no item is disturbed
    before the stream ends, fails or goes silent (what comes after that
    is never consumed). *)
Fixpoint undisturbed (items : list Item) : bool :=
  match items with
  | Deliver _ :: rest => undisturbed rest
  | Disturbed _ _ :: _ => false
  | _ => true
  end.

Definition calm (answer : CreateResult) : bool :=
  match answer with
  | Response items => undisturbed items
  | _ => true
  end.

(** The items that bring a chunk, disturbed or not. *)
Definition is_turn (item : Item) : bool :=
  match item with
  | Deliver _ | Disturbed _ _ => true
  | _ => false
  end.

(** The turns of the loop before the response fails or goes silent, and
    the items from there on. *)
Fixpoint turns (items : list Item) : list Item :=
  match items with
  | item :: rest => if is_turn item then item :: turns rest else []
  | [] => []
  end.

Fixpoint after_turns (items : list Item) : list Item :=
  match items with
  | item :: rest => if is_turn item then after_turns rest else items
  | [] => []
  end.

(** Does the chunk pass the guard of line 46? *)
Definition has_text (chunk : Chunk) : bool :=
  match fragment_of chunk with
  | Some s => truthy s
  | None => false
  end.

(** Does the loop body, handling that chunk, get to the statement at
    source line [line]?  It always evaluates the guard of line 46, and
    executes lines 47 to 51 when the guard holds. *)
Definition reaches (chunk : Chunk) (line : Z) : bool :=
  (line =? 46)
  || (has_text chunk
      && ((line =? 47) || (line =? 48) || (line =? 49) || (line =? 50)
          || (line =? 51))).

(** Does the alarm signal of that turn arrive inside the [try] of the
    loop body?  If an alarm is pending then, it is used up there, and the
    inner handler catches its [TimeoutException]. *)
Definition swallows_alarm (item : Item) : bool :=
  match item with
  | Disturbed chunk (AlarmBeforeLine line) => reaches chunk line
  | _ => false
  end.

Definition alarm_swallowed (answer : CreateResult) : bool :=
  match answer with
  | Response items => existsb swallows_alarm (turns items)
  | _ => false
  end.

(** The sink once it is closed with [text] in it. *)
Definition closed_with (text : string) : File := mkFile text EmptyString false.

(** What a caller can see of a finished call: the way it ended, and the
    accumulator and the sink it left. *)
Definition visible (run : Exit * St) : Exit * string * File :=
  (fst run, full_response (snd run), response_file (snd run)).

(** What a call leaves to be seen, read off the timeout and the answer of
    the service alone.  A timeout of zero arms no alarm, so silence then
    blocks the call with the sink still open. *)
Definition on_silence (timeout_seconds : Z) (text : string)
  : Exit * string * File :=
  if timeout_seconds =? 0
  then (Blocked, text, mkFile text EmptyString true)
  else (Returned None, text, closed_with text).

Definition summary (answer : CreateResult) (timeout_seconds : Z)
  : Exit * string * File :=
  if fits_C_int timeout_seconds then
    match answer with
    | CreateFails _ => (Returned None, EmptyString, closed_with EmptyString)
    | CreateStalls => on_silence timeout_seconds EmptyString
    | Response items =>
        let text := join (fragments (leading_chunks items)) in
        match after_leading items with
        | Stall :: _ => on_silence timeout_seconds text
        | Fail _ :: _ => (Returned None, text, closed_with text)
        | _ => (Returned (Some text), text, closed_with text)
        end
    end
  else (Returned None, EmptyString, closed_with EmptyString).

(** How many times such a call asks the response iterator for an item. *)
Definition summary_pulls (answer : CreateResult) (timeout_seconds : Z) : nat :=
  if fits_C_int timeout_seconds then
    match answer with
    | Response items => S (List.length (leading_chunks items))
    | _ => O
    end
  else O.

(** Does the service go silent before it fails or ends the stream? *)
Definition goes_silent (answer : CreateResult) : bool :=
  match answer with
  | CreateStalls => true
  | CreateFails _ => false
  | Response items =>
      match after_turns items with
      | Stall :: _ => true
      | _ => false
      end
  end.

(** A service whose second piece arrives just as the alarm goes off:
    the signal is handled after line 48 has extended the accumulator and
    before line 49 writes to the file. *)
Definition alarm_cuts_turn : Request -> CreateResult :=
  fun _ => Response [Deliver (text_chunk "Hel");
                     Disturbed (text_chunk "lo") (AlarmBeforeLine 49);
                     Deliver (text_chunk ", world")].

(** A service whose second piece is a text that the file cannot take. *)
Definition unwritable_piece : Request -> CreateResult :=
  fun _ => Response [Deliver (text_chunk "Hel");
                     Disturbed (text_chunk "?")
                               (WriteRaises
                                  (OtherError "UnicodeEncodeError"
                                              "surrogates not allowed"));
                     Deliver (text_chunk "lo")].

(** A service whose first piece uses up the alarm, and which then goes
    silent. *)
Definition alarm_lost_then_stall : Request -> CreateResult :=
  fun _ => Response [Disturbed (text_chunk "Hel") (AlarmBeforeLine 51); Stall].



(** A state left behind by an earlier call. *)
Definition used : St :=
  mkSt "old answer" (mkFile "old answer" EmptyString false) (Some 5)
       [FileClose; NetNext].

(** The request [main] sends for the text of the prompt file. *)
Definition main_request (env : Env) (text : string) : Request :=
  mkRequest (INFERENCE_API_MODEL env) (strip text) (Some default_temperature)
            default_stream.

(** Processes with no API key, with an unreadable prompt file, and with a
    prompt surrounded by white space. *)
Definition no_key_env : Env :=
  mkEnv None None (Some "test-model") (inr "Say hello") hello_world.

Definition unreadable_prompt_env : Env :=
  mkEnv (Some "sk-test-0000") None (Some "test-model")
        (inl (OtherError "FileNotFoundError" "No such file or directory"))
        hello_world.

Definition padded_prompt_env : Env :=
  mkEnv (Some "sk-test-0000") None (Some "test-model")
        (inr ("  Say hello " ++ LF)) hello_world.

(** A process whose service uses up the alarm and then goes silent. *)
Definition lost_alarm_env : Env :=
  mkEnv (Some "sk-test-0000") None (Some "test-model") (inr "Say hello")
        alarm_lost_then_stall.

End RunnerRuns.

Module GeneratorRuns.
Import Py OpenAI StreamingClient.

(** Does reading the content of the chunk raise? *)
Definition breaks (chunk : Chunk) : bool :=
  match get_content chunk with inl _ => true | inr _ => false end.

(** Does the item make the generator's [try] block raise? *)
Definition interrupts (item : Item) : bool :=
  match item with
  | Deliver chunk | Disturbed chunk _ => breaks chunk
  | Fail _ => true
  | Stall => false
  end.

(** A service whose second chunk has no choices. *)
Definition hello_then_empty_choices : Request -> CreateResult :=
  fun _ => Response [Deliver (text_chunk "Hello"); Deliver (ChunkObj []);
                     Deliver (text_chunk ", world")].

End GeneratorRuns.

(** * Properties *)

Open Scope list_scope.

(** ** The retry wrapper *)

Section RetryFacts.
Import Py ErrorHandler.
Context {W T : Type}.
Variable func : W -> Outcome T * W.
Variables max_retries max_delay : Z.

Local Abbreviation loop := (ErrorHandler.loop func max_retries max_delay).

(** The five ways one turn of the loop can go. *)

Lemma loop_exhausted retries delay w :
  max_retries <= retries ->
  loop retries delay w
  = mkRun (Raises (Exception exhausted_message)) [] w retries.
Proof.
  intros Hle. simp loop.
  destruct (Z_lt_dec retries max_retries) as [Hlt | Hge]; [lia | reflexivity].
Qed.

Ltac enter_loop :=
  simp loop;
  match goal with
  | |- context [Z_lt_dec ?a ?b] => destruct (Z_lt_dec a b); [| lia]
  end; cbn.

Lemma loop_returns retries delay w v w1 :
  retries < max_retries ->
  func w = (Returns v, w1) ->
  loop retries delay w = mkRun (Returns v) [EvCall] w1 retries.
Proof. intros Hlt Hf. enter_loop. rewrite Hf. reflexivity. Qed.

Lemma loop_propagates retries delay w error w1 :
  retries < max_retries ->
  func w = (Raises error, w1) ->
  isinstance_RetryableError error = false ->
  loop retries delay w = mkRun (Raises error) [EvCall] w1 retries.
Proof.
  intros Hlt Hf Hcls. enter_loop. rewrite Hf. cbn. rewrite Hcls. reflexivity.
Qed.

Lemma sleep_accepts delay :
  0 <= delay <= sleep_max -> sleep_rejects delay = None.
Proof.
  intros [Hlo Hhi]. unfold sleep_rejects.
  destruct (Z.ltb_spec delay (- sleep_max)); [unfold sleep_max in *; lia |].
  destruct (Z.ltb_spec sleep_max delay); [lia |].
  destruct (Z.ltb_spec delay 0); [lia | reflexivity].
Qed.

Lemma sleep_accepted_range delay :
  sleep_rejects delay = None -> 0 <= delay <= sleep_max.
Proof.
  unfold sleep_rejects.
  destruct (Z.ltb_spec delay (- sleep_max)); [discriminate |].
  destruct (Z.ltb_spec sleep_max delay); [discriminate |].
  destruct (Z.ltb_spec delay 0); [discriminate | lia].
Qed.

Lemma sleep_rejects_negative delay :
  - sleep_max <= delay < 0 -> sleep_rejects delay = Some sleep_error.
Proof.
  intros [Hlo Hhi]. unfold sleep_rejects.
  destruct (Z.ltb_spec delay (- sleep_max)); [lia |].
  destruct (Z.ltb_spec sleep_max delay); [unfold sleep_max in *; lia |].
  destruct (Z.ltb_spec delay 0); [reflexivity | lia].
Qed.

Lemma loop_sleep_rejected retries delay w error w1 sleep_exception :
  retries < max_retries ->
  func w = (Raises error, w1) ->
  isinstance_RetryableError error = true ->
  sleep_rejects delay = Some sleep_exception ->
  loop retries delay w
  = mkRun (Raises sleep_exception) [EvCall; EvWarning warning_message] w1 retries.
Proof.
  intros Hlt Hf Hcls Hrej. enter_loop. rewrite Hf. cbn. rewrite Hcls. cbn.
  rewrite Hrej. reflexivity.
Qed.

Lemma loop_retries retries delay w error w1 :
  retries < max_retries ->
  func w = (Raises error, w1) ->
  isinstance_RetryableError error = true ->
  sleep_rejects delay = None ->
  loop retries delay w
  = after [EvCall; EvWarning warning_message; EvSleep delay]
          (loop (retries + 1) (Z.min (delay * 2) max_delay) w1).
Proof.
  intros Hlt Hf Hcls Hacc. enter_loop. rewrite Hf. cbn. rewrite Hcls. cbn.
  rewrite Hacc. cbn. simp loop. reflexivity.
Qed.

(** When every attempt fails, the run is [n] failed attempts followed by
    the exhaustion failure, [n] being the number of turns the loop has
    left. *)
Lemma loop_all_fail (Inv : W -> Prop) :
  fails_retryably_on func Inv ->
  0 <= max_delay <= sleep_max ->
  forall (n : nat) retries delay w,
    Z.to_nat (max_retries - retries) = n ->
    0 <= delay <= sleep_max ->
    Inv w ->
    let r := loop retries delay w in
    outcome r = Raises (Exception exhausted_message)
    /\ trace r = failed_attempts max_delay delay n
    /\ retries_at_exit r = Z.max retries max_retries.
Proof.
  intros Hfail Hmax n.
  induction n as [| n IH]; intros retries delay w Hn Hdelay Hw.
  - rewrite loop_exhausted by lia. cbn. repeat split. lia.
  - destruct (Hfail w Hw) as (error & w1 & Hf & Hcls & Hw1).
    rewrite (loop_retries retries delay w error w1)
      by (assumption || lia || (apply sleep_accepts; assumption)).
    destruct (IH (retries + 1) (Z.min (delay * 2) max_delay) w1)
      as (Hout & Htr & Hex); [lia | lia | assumption |].
    cbn. rewrite Hout, Htr, Hex. repeat split. lia.
Qed.

(** Whatever the operation does, attempt [k + 1] is preceded by exactly
    the delay the local [delay] holds after [k] failures; nothing but what
    was pending precedes the first attempt of the loop. *)
Lemma loop_attempt_delays :
  forall (n : nat) retries delay w pending k ds,
    Z.to_nat (max_retries - retries) = n ->
    nth_error (attempt_delays_from pending (trace (loop retries delay w))) k
    = Some ds ->
    match k with
    | O => ds = pending
    | S k' => ds = [backoff max_delay delay k']
    end.
Proof.
  induction n as [| n IH]; intros retries delay w pending k ds Hn Hnth.
  - rewrite loop_exhausted in Hnth by lia. cbn in Hnth.
    destruct k; discriminate.
  - assert (Hlt : retries < max_retries) by lia.
    destruct (func w) as [[v | error] w1] eqn:Hf.
    + rewrite (loop_returns _ _ _ _ _ Hlt Hf) in Hnth. cbn in Hnth.
      destruct k as [| [| k]]; cbn in Hnth; congruence.
    + destruct (isinstance_RetryableError error) eqn:Hcls.
      * destruct (sleep_rejects delay) as [sleep_exception |] eqn:Hsleep.
        -- rewrite (loop_sleep_rejected _ _ _ _ _ _ Hlt Hf Hcls Hsleep) in Hnth.
           cbn in Hnth. destruct k as [| [| k]]; cbn in Hnth; congruence.
        -- rewrite (loop_retries _ _ _ _ _ Hlt Hf Hcls Hsleep) in Hnth.
           cbn in Hnth. destruct k as [| k]; cbn in Hnth; [congruence |].
           assert (Hn' : Z.to_nat (max_retries - (retries + 1)) = n) by lia.
           specialize (IH _ _ _ _ _ _ Hn' Hnth).
           destruct k as [| k]; cbn; assumption.
      * rewrite (loop_propagates _ _ _ _ _ Hlt Hf Hcls) in Hnth. cbn in Hnth.
        destruct k as [| [| k]]; cbn in Hnth; congruence.
Qed.

End RetryFacts.

Section BackoffFacts.
Import ErrorHandler.

(** The closed form of the delay schedule. *)
Lemma backoff_closed_form max_delay :
  forall (k : nat) delay,
    delay <= max_delay ->
    backoff max_delay delay k = Z.min (delay * 2 ^ Z.of_nat k) max_delay.
Proof.
  induction k as [| k IH]; intros delay Hle.
  - cbn [backoff]. change (2 ^ Z.of_nat 0) with 1. lia.
  - cbn [backoff]. rewrite IH by lia.
    rewrite Nat2Z.inj_succ, Z.pow_succ_r by lia.
    assert (Hpow : 1 <= 2 ^ Z.of_nat k) by (apply Z.pow_le_mono_r with (b := 0); lia).
    destruct (Z.le_gt_cases (delay * 2) max_delay) as [Hsmall | Hbig].
    + rewrite (Z.min_l (delay * 2)) by lia. f_equal. ring.
    + rewrite (Z.min_r (delay * 2)) by lia.
      rewrite !Z.min_r; [reflexivity | nia | nia].
Qed.

Lemma calls_app tr1 tr2 : calls (tr1 ++ tr2) = calls tr1 + calls tr2.
Proof. unfold calls. rewrite filter_app, length_app. lia. Qed.

Lemma sleeps_app tr1 tr2 : sleeps (tr1 ++ tr2) = sleeps tr1 ++ sleeps tr2.
Proof.
  induction tr1 as [| [| msg | d] tr1 IH]; cbn; [reflexivity | | | f_equal]; exact IH.
Qed.

Lemma failed_attempts_calls max_delay :
  forall (n : nat) delay, calls (failed_attempts max_delay delay n) = Z.of_nat n.
Proof.
  induction n as [| n IH]; intros delay; [reflexivity |].
  cbn [failed_attempts]. rewrite calls_app, IH. unfold calls. cbn [filter is_call List.length]. lia.
Qed.

Lemma failed_attempts_sleeps max_delay :
  forall (n : nat) delay,
    List.length (sleeps (failed_attempts max_delay delay n)) = n.
Proof.
  induction n as [| n IH]; intros delay; [reflexivity |].
  cbn [failed_attempts]. rewrite sleeps_app, length_app, IH. reflexivity.
Qed.


Lemma attempt_delays_length :
  forall tr pending,
    List.length (attempt_delays_from pending tr) = Z.to_nat (calls tr).
Proof.
  unfold calls.
  induction tr as [| [| msg | d] tr IH]; intros pending; cbn; rewrite ?IH; lia.
Qed.

End BackoffFacts.

Section RetryClaims.
Import Py ErrorHandler.
Context {W T : Type}.
Variable func : W -> Outcome T * W.
Variables max_retries base_delay max_delay : Z.
Variable w : W.

(** C2.  With [0 < base_delay <= max_delay], in every run of the retry
    wrapper nothing is slept before the first attempt, and for every
    [n >= 2] exactly one delay is slept between attempt [n - 1] and attempt
    [n], of [min (base_delay * 2 ^ (n - 2)) max_delay] seconds.  Every
    attempt the run makes is covered: attempts [1 .. calls] all have an
    entry. *)
Theorem retry_delay_schedule :
  0 < base_delay ->
  base_delay <= max_delay ->
  let tr := trace (retry_with_backoff func max_retries base_delay max_delay w) in
  (forall ds, delays_before_attempt tr 1 = Some ds -> ds = [])
  /\ (forall (n : nat) ds,
         (2 <= n)%nat ->
         delays_before_attempt tr n = Some ds ->
         ds = [Z.min (base_delay * 2 ^ (Z.of_nat n - 2)) max_delay])
  /\ (forall n : nat,
         (1 <= n)%nat -> Z.of_nat n <= calls tr ->
         delays_before_attempt tr n <> None).
Proof.
  intros Hbase Hcap tr. subst tr. unfold retry_with_backoff.
  split; [| split].
  - intros ds Hds. cbn in Hds.
    exact (loop_attempt_delays func max_retries max_delay _ 0 base_delay w
             [] 0%nat ds eq_refl Hds).
  - intros n ds Hn Hds. destruct n as [| [| k]]; [lia | lia |].
    cbn in Hds.
    pose proof (loop_attempt_delays func max_retries max_delay _ 0 base_delay w
                  [] (S k) ds eq_refl Hds) as Hshape.
    cbn in Hshape. rewrite Hshape, backoff_closed_form by assumption.
    replace (Z.of_nat (S (S k)) - 2) with (Z.of_nat k) by lia. reflexivity.
  - intros n Hn Hcalls. destruct n as [| k]; [lia |]. cbn.
    apply nth_error_Some. unfold attempt_delays.
    rewrite attempt_delays_length. lia.
Qed.


(** C4.  When the operation's first failure is not a [RetryableError], the
    wrapper raises that very error at once: the operation was invoked at
    most once (exactly once when [max_retries] is positive, and then the
    call is the whole trace), nothing was slept, and the retry counter is
    still zero. *)
Theorem non_retryable_error_propagates error w1 :
  func w = (Raises error, w1) ->
  isinstance_RetryableError error = false ->
  let r := retry_with_backoff func max_retries base_delay max_delay w in
  calls (trace r) <= 1
  /\ sleeps (trace r) = []
  /\ retries_at_exit r = 0
  /\ (0 < max_retries -> r = mkRun (Raises error) [EvCall] w1 0).
Proof.
  intros Hf Hcls r. subst r. unfold retry_with_backoff.
  destruct (Z.lt_ge_cases 0 max_retries) as [Hpos | Hnone].
  - rewrite (loop_propagates func max_retries max_delay 0 base_delay w error w1)
      by assumption.
    unfold calls. cbn. repeat split. lia.
  - rewrite loop_exhausted by lia. unfold calls. cbn. repeat split; lia.
Qed.


(** C10.  With [max_retries <= 0] the loop body never runs: the operation
    is not invoked, nothing is slept, and the exhaustion failure is raised
    at once, in the world the wrapper was called in. *)
Theorem no_attempt_without_budget :
  max_retries <= 0 ->
  let r := retry_with_backoff func max_retries base_delay max_delay w in
  r = mkRun (Raises (Exception exhausted_message)) [] w 0
  /\ calls (trace r) = 0
  /\ sleeps (trace r) = [].
Proof.
  intros Hle r. subst r. unfold retry_with_backoff.
  rewrite loop_exhausted by lia. repeat split.
Qed.

End RetryClaims.

Section RetryExamples.
Import Py ErrorHandler.

Lemma always_retryable_fails : fails_retryably_on always_retryable (fun _ => True).
Proof.
  intros w _. exists (RetryableError "transient"), w. repeat split.
Qed.

(** The scenario of the specification: three attempts allowed, the first
    two fail, the third succeeds; the delays are 1 and 2. *)
Example retry_scenario :
  let r := retry_with_backoff fails_then_succeeds 3 1 60 2%nat in
  outcome r = Returns 42%nat
  /\ sleeps (trace r) = [1; 2]
  /\ calls (trace r) = 3
  /\ attempt_delays (trace r) = [[]; [1]; [2]].
Proof. repeat split. Qed.

(** A negative delay makes [time.sleep] raise after the first failure. *)
Example retry_negative_delay :
  retry_with_backoff always_retryable 3 (-1) 60 tt
  = mkRun (Raises sleep_error) [EvCall; EvWarning warning_message] tt 0.
Proof. reflexivity. Qed.

Lemma retry_delay_schedule_witness :
  0 < 1 /\ 1 <= 60
  /\ let tr := trace (retry_with_backoff fails_then_succeeds 3 1 60 2%nat) in
     (forall ds, delays_before_attempt tr 1 = Some ds -> ds = [])
     /\ (forall (n : nat) ds,
            (2 <= n)%nat ->
            delays_before_attempt tr n = Some ds ->
            ds = [Z.min (1 * 2 ^ (Z.of_nat n - 2)) 60])
     /\ (forall n : nat,
            (1 <= n)%nat -> Z.of_nat n <= calls tr ->
            delays_before_attempt tr n <> None).
Proof.
  split; [lia | split; [lia |]].
  apply (retry_delay_schedule fails_then_succeeds 3 1 60 2%nat); lia.
Defined.



Lemma non_retryable_error_propagates_witness :
  let r := retry_with_backoff always_fatal 3 1 60 tt in
  calls (trace r) <= 1
  /\ sleeps (trace r) = []
  /\ retries_at_exit r = 0
  /\ (0 < 3 -> r = mkRun (Raises (OtherError "KeyError" "missing")) [EvCall] tt 0).
Proof.
  apply (non_retryable_error_propagates always_fatal 3 1 60 tt
           (OtherError "KeyError" "missing") tt); reflexivity.
Defined.



Lemma no_attempt_without_budget_witness :
  let r := retry_with_backoff always_retryable 0 1 60 tt in
  r = mkRun (Raises (Exception exhausted_message)) [] tt 0
  /\ calls (trace r) = 0
  /\ sleeps (trace r) = [].
Proof.
  apply (no_attempt_without_budget always_retryable 0 1 60 tt); lia.
Defined.

(** C5.  Whatever [max_retries] is, the failure raised on exhaustion
    carries the same fixed text, in which [{max_retries}] stands unexpanded
    and no digit occurs: the message does not give the attempt count. *)
Theorem exhaustion_message_is_fixed_text :
  forall max_retries : Z,
    outcome (retry_with_backoff always_retryable max_retries 1 60 tt)
    = Raises (Exception "Function failed after {max_retries} attempts")
    /\ has_digit "Function failed after {max_retries} attempts" = false.
Proof.
  intros max_retries. split; [| reflexivity].
  unfold retry_with_backoff.
  destruct (loop_all_fail always_retryable max_retries 60 (fun _ => True)
              always_retryable_fails ltac:(unfold sleep_max; lia)
              (Z.to_nat (max_retries - 0)) 0 1 tt eq_refl
              ltac:(unfold sleep_max; lia) I)
    as (Hout & _).
  exact Hout.
Qed.

End RetryExamples.

(** ** The timed streaming runner *)

Section RunnerFacts.
Import Py OpenAI InferenceRequest RunnerRuns.

Lemma string_app_nil_r (s : string) : (s ++ EmptyString)%string = s.
Proof. induction s as [| c s IH]; cbn; [| rewrite IH]; reflexivity. Qed.

Lemma string_app_assoc (s1 s2 s3 : string) :
  ((s1 ++ s2) ++ s3)%string = (s1 ++ (s2 ++ s3))%string.
Proof. induction s1 as [| c s1 IH]; cbn; [| rewrite IH]; reflexivity. Qed.

Lemma truthy_false (s : string) : truthy s = false -> s = EmptyString.
Proof. destruct s; [reflexivity | discriminate]. Qed.

Lemma join_fragments_cons chunk chunks :
  join (fragments (chunk :: chunks))
  = (text_of chunk ++ join (fragments chunks))%string.
Proof. unfold text_of. cbn. destruct (fragment_of chunk); reflexivity. Qed.


Lemma advanced_refl st : in_sync st -> advanced 0 EmptyString st st.
Proof.
  intros Hsync. unfold advanced. rewrite string_app_nil_r, Nat.add_0_r.
  repeat split; apply Hsync.
Qed.

Lemma advanced_trans n1 n2 t1 t2 st1 st2 st3 :
  advanced n1 t1 st1 st2 -> advanced n2 t2 st2 st3 ->
  advanced (n1 + n2) (t1 ++ t2)%string st1 st3.
Proof.
  unfold advanced.
  intros (Hf1 & _ & Ha1 & Ho1 & Hp1 & Hr1) (Hf2 & Hs2 & Ha2 & Ho2 & Hp2 & Hr2).
  rewrite Hf2, Hf1, string_app_assoc, Hp2, Hp1.
  repeat split; try apply Hs2; try congruence. lia.
Qed.

(** One turn of the loop, whatever the item and whatever interferes.  It
    sends no request and asks the iterator once; it leaves the file
    handle as it is; it executes no [return]; apart from the log it
    appends to, it neither reads nor keeps anything of the log; and on a
    chunk it ends normally, having used up the alarm when the signal came
    inside the body. *)
Lemma iteration_effect item f r a l :
  requests (snd (iteration item (mkSt f r a l))) = requests (mkSt f r a l)
  /\ pulls (snd (iteration item (mkSt f r a l))) = S (pulls (mkSt f r a l))
  /\ is_open (response_file (snd (iteration item (mkSt f r a l)))) = is_open r
  /\ (forall v, fst (iteration item (mkSt f r a l)) <> Return v)
  /\ (forall l',
         fst (iteration item (mkSt f r a l')) = fst (iteration item (mkSt f r a l))
         /\ full_response (snd (iteration item (mkSt f r a l')))
            = full_response (snd (iteration item (mkSt f r a l)))
         /\ response_file (snd (iteration item (mkSt f r a l')))
            = response_file (snd (iteration item (mkSt f r a l)))
         /\ alarm (snd (iteration item (mkSt f r a l')))
            = alarm (snd (iteration item (mkSt f r a l))))
  /\ (is_turn item = true ->
      fst (iteration item (mkSt f r a l)) = Ok tt
      /\ alarm (snd (iteration item (mkSt f r a l)))
         = if swallows_alarm item then None else a).
Proof.
  unfold requests, pulls, swallows_alarm, reaches, has_text.
  destruct item as [chunk | chunk [line | e'] | e |];
    try (destruct chunk as [[| [[[[[| c s] |]] |]] rest] | e'']);
    destruct a as [seconds |];
    unfold iteration, process_chunk, at_line, response_file_write, blocked,
      alarm_goes_off, hang, get_choices, try_except, bind, do, ret, raise, print,
      print_end_empty, print_exc, stdout_flush, get_full_response,
      set_full_response, file_write, file_flush, emit, set_file, set_alarm,
      flushed;
    cbn;
    repeat match goal with
           | |- context [if ?b then _ else _] => destruct b eqn:?; cbn
           end;
    repeat split; try discriminate; try reflexivity.
Qed.

(** A turn of the loop reads the accumulator, the sink and the alarm,
    and nothing else of the state. *)
Lemma iteration_core item st st' :
  same_core st st' ->
  fst (iteration item st) = fst (iteration item st')
  /\ same_core (snd (iteration item st)) (snd (iteration item st')).
Proof.
  destruct st as [f r a l], st' as [f' r' a' l'].
  intros (Hf & Hr & Ha). cbn in Hf, Hr, Ha. subst f' r' a'.
  destruct (iteration_effect item f r a l') as (_ & _ & _ & _ & Hcore & _).
  destruct (Hcore l) as (Hfst & Hfull & Hfile & Halarm).
  split; [exact Hfst | repeat split; assumption].
Qed.

Lemma for_chunk_in_core :
  forall items st st',
    same_core st st' ->
    fst (for_chunk_in items st) = fst (for_chunk_in items st')
    /\ same_core (snd (for_chunk_in items st)) (snd (for_chunk_in items st')).
Proof.
  induction items as [| item items IH]; intros st st' Hcore.
  - split; [reflexivity | exact Hcore].
  - destruct (iteration_core item st st' Hcore) as [Hfst Hcore1].
    cbn [for_chunk_in]. unfold bind.
    destruct (iteration item st) as [res st1], (iteration item st') as [res' st1'].
    cbn [fst snd] in Hfst, Hcore1. subst res'.
    destruct res as [[] | e | v |]; cbn [fst snd];
      try (split; [reflexivity | exact Hcore1]).
    apply IH. exact Hcore1.
Qed.

(** The loop sends no request, leaves the file handle as it is, and
    executes no [return], whatever the items. *)
Lemma for_chunk_in_effect :
  forall items st,
    requests (snd (for_chunk_in items st)) = requests st
    /\ is_open (response_file (snd (for_chunk_in items st)))
       = is_open (response_file st)
    /\ (forall v, fst (for_chunk_in items st) <> Return v).
Proof.
  induction items as [| item items IH]; intros st.
  - repeat split. discriminate.
  - destruct st as [f r a l].
    destruct (iteration_effect item f r a l) as (Hreq & _ & Hopen & Hret & _).
    cbn [for_chunk_in]. unfold bind.
    destruct (iteration item (mkSt f r a l)) as [[[] | e | v |] st1];
      cbn [fst snd] in *;
      try (repeat split; [assumption | assumption | discriminate]).
    + destruct (IH st1) as (Hreq1 & Hopen1 & Hret1).
      rewrite Hreq1, Hopen1. repeat split; assumption.
    + exfalso. exact (Hret v eq_refl).
Qed.

(** The loop on the turns that bring a chunk, disturbed or not: it goes
    on with the first item that brings none, and the alarm has been used
    up if one of the turns swallowed it. *)
Lemma for_chunk_in_turns :
  forall items st,
    exists st',
      for_chunk_in items st = for_chunk_in (after_turns items) st'
      /\ alarm st'
         = (if existsb swallows_alarm (turns items) then None else alarm st)
      /\ is_open (response_file st') = is_open (response_file st).
Proof.
  induction items as [| item items IH]; intros st.
  - exists st. repeat split.
  - cbn [turns after_turns]. destruct (is_turn item) eqn:Hturn.
    + destruct st as [f r a l].
      destruct (iteration_effect item f r a l) as (_ & _ & Hopen & _ & _ & Hok).
      destruct (Hok Hturn) as [Hfst Halarm].
      destruct (iteration item (mkSt f r a l)) as [res st1] eqn:Hrun.
      cbn [fst snd] in Hfst, Halarm, Hopen. subst res.
      destruct (IH st1) as (st' & Hloop & Halarm' & Hopen').
      exists st'. split; [| split].
      * cbn [for_chunk_in]. unfold bind. rewrite Hrun. exact Hloop.
      * cbn [existsb alarm]. rewrite Halarm', Halarm.
        destruct (swallows_alarm item); cbn;
          [destruct (existsb swallows_alarm (turns items)) |]; reflexivity.
      * rewrite Hopen', Hopen. reflexivity.
    + exists st. repeat split.
Qed.

Lemma after_turns_cases (items : list Item) :
  after_turns items = []
  \/ (exists e rest, after_turns items = Fail e :: rest)
  \/ (exists rest, after_turns items = Stall :: rest).
Proof.
  induction items as [| [chunk | chunk trouble | e |] items IH]; cbn.
  - left. reflexivity.
  - exact IH.
  - exact IH.
  - right. left. eauto.
  - right. right. eauto.
Qed.

(** The loop body never raises: it takes in the text of the chunk, if
    there is any, and leaves sink and accumulator in agreement. *)
Lemma process_chunk_absorbs chunk st :
  in_sync st ->
  exists st', process_chunk None chunk st = (Ok tt, st')
              /\ advanced 0 (text_of chunk) st st'.
Proof.
  intros Hsync. pose proof (advanced_refl st Hsync) as Hrefl.
  destruct Hsync as [Hdur Hbuf].
  destruct chunk as [choices | e]; [destruct choices as [| [d] rest] |];
    [| destruct d as [[text] |] |];
    [| destruct text as [[| c s] |] | |];
    try (eexists; split; [reflexivity | assumption]).
  eexists. split; [reflexivity |].
  unfold advanced, in_sync, pulls, requests, text_of; cbn.
  rewrite Hbuf, Hdur, Nat.add_0_r. repeat split.
Qed.

(** One turn of the loop on a delivered chunk. *)
Lemma iteration_deliver chunk st :
  in_sync st ->
  exists st', iteration (Deliver chunk) st = (Ok tt, st')
              /\ advanced 1 (text_of chunk) st st'.
Proof.
  intros Hsync.
  assert (Hnext : advanced 1 EmptyString st (emit NetNext st)).
  { unfold advanced, pulls, requests. cbn. rewrite string_app_nil_r, Nat.add_1_r.
    repeat split; apply Hsync. }
  destruct (process_chunk_absorbs chunk (emit NetNext st)) as (st' & Hrun & Hadv).
  { apply Hnext. }
  exists st'. split.
  - unfold iteration, bind, do. exact Hrun.
  - exact (advanced_trans _ _ _ _ _ _ _ Hnext Hadv).
Qed.

(** The loop on a run of delivered chunks, whatever follows them. *)
Lemma for_chunk_in_delivers :
  forall chunks rest st,
    in_sync st ->
    exists st',
      for_chunk_in (map Deliver chunks ++ rest) st = for_chunk_in rest st'
      /\ advanced (List.length chunks) (join (fragments chunks)) st st'.
Proof.
  induction chunks as [| chunk chunks IH]; intros rest st Hsync.
  - exists st. split; [reflexivity | apply advanced_refl; assumption].
  - destruct (iteration_deliver chunk st Hsync) as (st1 & Hrun & Hadv1).
    destruct (IH rest st1) as (st2 & Hloop & Hadv2); [apply Hadv1 |].
    exists st2. split.
    + cbn [map app for_chunk_in]. unfold bind at 1. rewrite Hrun. exact Hloop.
    + rewrite join_fragments_cons.
      exact (advanced_trans _ _ _ _ _ _ _ Hadv1 Hadv2).
Qed.

(** One turn of the loop that nothing disturbs, whatever the item: sink
    and accumulator agree afterwards. *)
Lemma iteration_keeps item rest st :
  undisturbed (item :: rest) = true ->
  in_sync st ->
  in_sync (snd (iteration item st))
  /\ (fst (iteration item st) = Ok tt -> undisturbed rest = true).
Proof.
  intros Hcalm Hsync. destruct item as [chunk | chunk trouble | e |].
  - destruct (iteration_deliver chunk st Hsync) as (st' & Hrun & Hadv).
    rewrite Hrun. split; [apply Hadv | intros _; exact Hcalm].
  - discriminate.
  - split; [exact Hsync | discriminate].
  - unfold iteration, blocked, alarm_goes_off, hang, bind, do. cbn.
    destruct (alarm st); cbn; split; solve [exact Hsync | discriminate].
Qed.

Lemma for_chunk_in_keeps :
  forall items st,
    undisturbed items = true ->
    in_sync st ->
    in_sync (snd (for_chunk_in items st)).
Proof.
  induction items as [| item items IH]; intros st Hcalm Hsync.
  - exact Hsync.
  - destruct (iteration_keeps item items st Hcalm Hsync) as [Hsync1 Hcalm1].
    cbn [for_chunk_in]. unfold bind.
    destruct (iteration item st) as [[[] | e | v |] st1]; cbn [fst snd] in *;
      try assumption.
    apply IH; [apply Hcalm1; reflexivity | assumption].
Qed.

(** Sink and accumulator agree at every point of the consumption of a
    stream that nothing disturbs. *)
Lemma consumption_points_in_sync :
  forall items st,
    undisturbed items = true ->
    in_sync st -> Forall in_sync (consumption_points items st).
Proof.
  induction items as [| item items IH]; intros st Hcalm Hsync;
    cbn [consumption_points].
  - constructor; [assumption | constructor].
  - constructor; [assumption |].
    destruct (iteration_keeps item items st Hcalm Hsync) as [Hsync1 Hcalm1].
    destruct (iteration item st) as [[[] | e | v |] st1]; cbn [fst snd] in *;
      try (constructor; [assumption | constructor]).
    apply IH; [apply Hcalm1; reflexivity | assumption].
Qed.

(** The loop ends in the last of its consumption points, as far as the
    accumulator and the sink are concerned. *)
Lemma for_chunk_in_ends_at_last_point :
  forall items st,
    exists earlier final,
      consumption_points items st = earlier ++ [final]
      /\ full_response (snd (for_chunk_in items st)) = full_response final
      /\ response_file (snd (for_chunk_in items st)) = response_file final.
Proof.
  induction items as [| item items IH]; intros st.
  - exists [], st. repeat split.
  - cbn [consumption_points for_chunk_in]. unfold bind.
    destruct (iteration item st) as [[[] | e | v |] st1];
      try solve [exists [st], st1; repeat split].
    destruct (IH st1) as (earlier & final & Hpoints & Hfull & Hfile).
    exists (st :: earlier), final. rewrite Hpoints. repeat split; assumption.
Qed.

Lemma fits_C_int_true n : INT_MIN <= n <= INT_MAX -> fits_C_int n = true.
Proof. unfold fits_C_int. intros [Hlo Hhi]. apply andb_true_iff. lia. Qed.

(** The call reaches the loop when the timeout fits a C int and the
    capability answers with a response iterator; the sink is then open and
    empty, like the accumulator, and one request has been sent. *)
Lemma before_loop_enters client model prompt temperature stream timeout_seconds
      items st :
  INT_MIN <= timeout_seconds <= INT_MAX ->
  chat_completions_create client (mkRequest model prompt (Some temperature) stream)
  = Response items ->
  exists st1,
    before_loop client model prompt temperature stream timeout_seconds st
    = (Ok items, st1)
    /\ full_response st1 = EmptyString
    /\ in_sync st1
    /\ alarm st1 = (if timeout_seconds =? 0 then None else Some timeout_seconds)
    /\ is_open (response_file st1) = true
    /\ pulls st1 = pulls st
    /\ requests st1
       = requests st ++ [mkRequest model prompt (Some temperature) stream].
Proof.
  intros Hfits Hcreate. apply fits_C_int_true in Hfits.
  unfold before_loop, header, print, stdout_flush, set_full_response, file_open,
    signal_alarm, create, bind, do, ret.
  cbn -[fits_C_int]. rewrite Hfits, Hcreate.
  eexists. split; [reflexivity |].
  unfold in_sync, pulls, requests. cbn. repeat split.
Qed.

(** From the state in which the loop is entered, the call goes on as
    [after_loop] says. *)
Lemma create_completion_from_loop client model prompt temperature stream
      timeout_seconds items st st1 :
  before_loop client model prompt temperature stream timeout_seconds st
  = (Ok items, st1) ->
  create_completion client model prompt temperature stream timeout_seconds st
  = call (after_loop timeout_seconds (for_chunk_in items)) st1.
Proof.
  unfold before_loop, create_completion, create_completion_body, after_loop,
    call, with_open, timeout, try_except, try_finally, header, print,
    stdout_flush, set_full_response, file_open, signal_alarm, create, bind, do, ret.
  cbn -[fits_C_int].
  destruct (fits_C_int timeout_seconds); [| discriminate].
  cbn.
  destruct (chat_completions_create client _) as [items' | e |]; cbn.
  - intros H. injection H as <- <-. reflexivity.
  - discriminate.
  - unfold blocked. cbn. destruct (timeout_seconds =? 0); discriminate.
Qed.

(** The four ways the loop can end, and what the call returns then. *)
Lemma after_loop_complete timeout_seconds (loop : M unit) st1 st2 :
  loop st1 = (Ok tt, st2) ->
  call (after_loop timeout_seconds loop) st1
  = (Returned (Some (full_response st2)),
     file_close
       (cancel_alarm
          (emit StdoutFlush
                (emit (Print ((LF ++ "--- Stream Complete ---") ++ LF)) st2)))).
Proof.
  intros Hloop.
  unfold call, after_loop, try_except, try_finally, bind, print, stdout_flush, do.
  rewrite Hloop. reflexivity.
Qed.

Lemma after_loop_timeout timeout_seconds (loop : M unit) st1 st2 msg :
  loop st1 = (Raise (TimeoutException msg), st2) ->
  call (after_loop timeout_seconds loop) st1
  = (Returned None,
     file_close
       (emit StdoutFlush
             (emit (Print ((LF ++ "--- Timeout after "
                               ++ str_int timeout_seconds ++ " seconds ---")
                             ++ LF))
                   (cancel_alarm st2)))).
Proof.
  intros Hloop.
  unfold call, after_loop, try_except, try_finally, bind, on_timeout, print,
    stdout_flush, do.
  rewrite Hloop. reflexivity.
Qed.

Lemma after_loop_error timeout_seconds (loop : M unit) st1 st2 e :
  loop st1 = (Raise e, st2) ->
  isinstance_TimeoutException e = false ->
  exists st3,
    call (after_loop timeout_seconds loop) st1 = (Returned None, st3)
    /\ full_response st3 = full_response st2
    /\ response_file st3
       = mkFile (durable (response_file st2) ++ buffer (response_file st2))
                EmptyString false
    /\ alarm st3 = None
    /\ pulls st3 = pulls st2
    /\ requests st3 = requests st2.
Proof.
  intros Hloop Hcls.
  unfold call, after_loop, try_except, try_finally, bind, on_error, print,
    print_exc, stdout_flush, do.
  rewrite Hloop. cbn. rewrite Hcls. cbn. eexists. split; [reflexivity |].
  repeat split.
Qed.

Lemma after_loop_hang timeout_seconds (loop : M unit) st1 st2 :
  loop st1 = (Hang, st2) ->
  call (after_loop timeout_seconds loop) st1 = (Blocked, st2).
Proof.
  intros Hloop.
  unfold call, after_loop, try_except, try_finally, bind.
  rewrite Hloop. reflexivity.
Qed.

Lemma after_loop_return timeout_seconds (loop : M unit) st1 st2 v :
  loop st1 = (Return v, st2) ->
  call (after_loop timeout_seconds loop) st1
  = (Returned v, file_close (cancel_alarm st2)).
Proof.
  intros Hloop.
  unfold call, after_loop, try_except, try_finally, bind.
  rewrite Hloop. reflexivity.
Qed.

(** Whatever way the loop ends, the rest of the call keeps what the loop
    left of the accumulator and brings what is left in the buffer to the
    disk, if it returns; it sends no request. *)
Lemma after_loop_leaves timeout_seconds (loop : M unit) st1 :
  let st2 := snd (loop st1) in
  let st3 := snd (call (after_loop timeout_seconds loop) st1) in
  full_response st3 = full_response st2
  /\ requests st3 = requests st2
  /\ (fst (call (after_loop timeout_seconds loop) st1) = Blocked
      /\ response_file st3 = response_file st2
      \/ (exists v, fst (call (after_loop timeout_seconds loop) st1) = Returned v)
         /\ response_file st3
            = mkFile (durable (response_file st2) ++ buffer (response_file st2))
                     EmptyString false
         /\ alarm st3 = None).
Proof.
  destruct (loop st1) as [[[] | e | v |] st2] eqn:Hloop; cbn [snd].
  - rewrite (after_loop_complete _ _ _ _ Hloop).
    repeat split. right. split; [eexists; reflexivity | split; reflexivity].
  - destruct (isinstance_TimeoutException e) eqn:Hcls.
    + destruct e; try discriminate.
      rewrite (after_loop_timeout _ _ _ _ _ Hloop).
      repeat split. right. split; [eexists; reflexivity | split; reflexivity].
    + destruct (after_loop_error timeout_seconds _ _ _ _ Hloop Hcls)
        as (st3 & Hrun & Hfull & Hfile & Halarm & _ & Hreq).
      rewrite Hrun. cbn [fst snd]. repeat split; try assumption.
      right. split; [eexists; reflexivity | split; assumption].
  - rewrite (after_loop_return _ _ _ _ _ Hloop).
    repeat split. right. split; [eexists; reflexivity | split; reflexivity].
  - rewrite (after_loop_hang _ _ _ _ Hloop).
    repeat split. left. split; reflexivity.
Qed.

(** A call whose turns nothing disturbs leaves sink and accumulator in
    agreement, whatever way the loop ends. *)
Lemma after_loop_keeps timeout_seconds items st1 :
  undisturbed items = true ->
  in_sync st1 ->
  in_sync (snd (call (after_loop timeout_seconds (for_chunk_in items)) st1)).
Proof.
  intros Hcalm Hsync1.
  destruct (for_chunk_in_keeps items st1 Hcalm Hsync1) as [Hdur Hbuf].
  destruct (after_loop_leaves timeout_seconds (for_chunk_in items) st1)
    as (Hfull & _ & [[_ Hfile] | (_ & Hfile & _)]);
    unfold in_sync; rewrite Hfull, Hfile.
  - split; assumption.
  - cbn. rewrite Hbuf, string_app_nil_r. split; [assumption | reflexivity].
Qed.

(** The rest of the call reads the accumulator, the sink and the alarm,
    and nothing else of the state the loop is entered in. *)
Lemma after_loop_core timeout_seconds items st1 st1' :
  same_core st1 st1' ->
  fst (call (after_loop timeout_seconds (for_chunk_in items)) st1)
  = fst (call (after_loop timeout_seconds (for_chunk_in items)) st1')
  /\ full_response (snd (call (after_loop timeout_seconds (for_chunk_in items)) st1))
     = full_response
         (snd (call (after_loop timeout_seconds (for_chunk_in items)) st1'))
  /\ response_file (snd (call (after_loop timeout_seconds (for_chunk_in items)) st1))
     = response_file
         (snd (call (after_loop timeout_seconds (for_chunk_in items)) st1')).
Proof.
  intros Hcore.
  destruct (for_chunk_in_core items st1 st1' Hcore) as (Hfst & Hf & Hr & Ha).
  destruct (for_chunk_in items st1) as [res st2] eqn:Hloop.
  destruct (for_chunk_in items st1') as [res' st2'] eqn:Hloop'.
  cbn [fst snd] in Hfst, Hf, Hr, Ha. subst res'.
  destruct res as [[] | e | v |].
  - rewrite (after_loop_complete _ _ _ _ Hloop), (after_loop_complete _ _ _ _ Hloop').
    cbn. rewrite Hf, Hr. repeat split.
  - destruct (isinstance_TimeoutException e) eqn:Hcls.
    + destruct e; try discriminate.
      rewrite (after_loop_timeout _ _ _ _ _ Hloop),
        (after_loop_timeout _ _ _ _ _ Hloop').
      cbn. rewrite Hf, Hr. repeat split.
    + destruct (after_loop_error timeout_seconds _ _ _ _ Hloop Hcls)
        as (st3 & Hrun & Hfull & Hfile & _).
      destruct (after_loop_error timeout_seconds _ _ _ _ Hloop' Hcls)
        as (st3' & Hrun' & Hfull' & Hfile' & _).
      rewrite Hrun, Hrun'. cbn [fst snd].
      rewrite Hfull, Hfull', Hfile, Hfile', Hf, Hr. repeat split.
  - rewrite (after_loop_return _ _ _ _ _ Hloop), (after_loop_return _ _ _ _ _ Hloop').
    cbn. rewrite Hf, Hr. repeat split.
  - rewrite (after_loop_hang _ _ _ _ Hloop), (after_loop_hang _ _ _ _ Hloop').
    cbn. rewrite Hf, Hr. repeat split.
Qed.

(** The state in which the loop is entered has sink and accumulator in
    agreement. *)
Lemma before_loop_in_sync client model prompt temperature stream timeout_seconds
      items st st1 :
  before_loop client model prompt temperature stream timeout_seconds st
  = (Ok items, st1) ->
  in_sync st1.
Proof.
  unfold before_loop, header, print, stdout_flush, set_full_response, file_open,
    signal_alarm, create, bind, do, ret.
  cbn -[fits_C_int].
  destruct (fits_C_int timeout_seconds); [| discriminate].
  cbn.
  destruct (chat_completions_create client _) as [items' | e |]; cbn.
  - intros H. injection H as <- <-. split; reflexivity.
  - discriminate.
  - unfold blocked. cbn. destruct (timeout_seconds =? 0); discriminate.
Qed.

(** The loop is entered with the response iterator that the capability
    has answered with. *)
Lemma before_loop_answer client model prompt temperature stream timeout_seconds
      items st st1 :
  before_loop client model prompt temperature stream timeout_seconds st
  = (Ok items, st1) ->
  chat_completions_create client (mkRequest model prompt (Some temperature) stream)
  = Response items.
Proof.
  unfold before_loop, header, print, stdout_flush, set_full_response, file_open,
    signal_alarm, create, bind, do, ret.
  cbn -[fits_C_int].
  destruct (fits_C_int timeout_seconds); [| discriminate].
  cbn.
  destruct (chat_completions_create client _) as [items' | e |]; cbn.
  - intros H. injection H as <- <-. reflexivity.
  - discriminate.
  - unfold blocked. cbn. destruct (timeout_seconds =? 0); discriminate.
Qed.

(** A call that does not reach the loop leaves an empty sink and an empty
    accumulator. *)
Lemma create_completion_without_loop client model prompt temperature stream
      timeout_seconds st :
  (forall items st1,
      before_loop client model prompt temperature stream timeout_seconds st
      <> (Ok items, st1)) ->
  let st3 :=
    snd (create_completion client model prompt temperature stream
                           timeout_seconds st) in
  in_sync st3 /\ full_response st3 = EmptyString.
Proof.
  unfold before_loop, create_completion, create_completion_body,
    call, with_open, timeout, try_except, try_finally, header, print,
    stdout_flush, set_full_response, file_open, signal_alarm, create, bind, do, ret.
  cbn -[fits_C_int].
  destruct (fits_C_int timeout_seconds); cbn; [| intros _; repeat split].
  destruct (chat_completions_create client _) as [items' | e |]; cbn.
  - intros H. exfalso. eapply H. reflexivity.
  - intros _. destruct e; cbn; repeat split.
  - intros _. unfold blocked. cbn.
    destruct (timeout_seconds =? 0); cbn; repeat split.
Qed.

End RunnerFacts.

Section RunnerClaims.
Import Py OpenAI InferenceRequest.
Variable client : Client.
Variable model : option string.
Variable prompt : string.
Variable temperature : Q.
Variable stream : bool.
Variable timeout_seconds : Z.
Variable st : St.

Local Abbreviation request := (mkRequest model prompt (Some temperature) stream).
Local Abbreviation run :=
  (create_completion client model prompt temperature stream timeout_seconds st).



(** Whatever the service does, a call with a timeout that fits a C int
    sends it exactly one request. *)
Lemma create_completion_sends_request :
  INT_MIN <= timeout_seconds <= INT_MAX ->
  requests (snd run) = requests st ++ [request].
Proof.
  intros Hfits.
  destruct (chat_completions_create client request) as [items | e |] eqn:Hcreate.
  - destruct (before_loop_enters client model prompt temperature stream
                timeout_seconds _ st Hfits Hcreate)
      as (st1 & Hbefore & _ & _ & _ & _ & _ & Hreq1).
    rewrite (create_completion_from_loop _ _ _ _ _ _ _ _ _ Hbefore).
    destruct (after_loop_leaves timeout_seconds (for_chunk_in items) st1)
      as (_ & Hreq3 & _).
    destruct (for_chunk_in_effect items st1) as (Hreq2 & _).
    rewrite Hreq3, Hreq2. exact Hreq1.
  - apply fits_C_int_true in Hfits.
    unfold create_completion, create_completion_body,
      call, with_open, timeout, try_except, try_finally, header, print,
      stdout_flush, set_full_response, file_open, signal_alarm, create, bind, do, ret.
    cbn -[fits_C_int]. rewrite Hfits, Hcreate. destruct e; reflexivity.
  - apply fits_C_int_true in Hfits.
    unfold create_completion, create_completion_body,
      call, with_open, timeout, try_except, try_finally, header, print,
      stdout_flush, set_full_response, file_open, signal_alarm, create, bind, do,
      ret, blocked.
    cbn -[fits_C_int]. rewrite Hfits, Hcreate. cbn.
    destruct (timeout_seconds =? 0); reflexivity.
Qed.

End RunnerClaims.

Section GeneratorFacts.
Import Py OpenAI StreamingClient.


Lemma echoed_truthy_pieces :
  forall frags : list string,
    echoed (map Some (filter truthy frags)) = join frags.
Proof.
  induction frags as [| s frags IH]; [reflexivity |].
  cbn [filter]. destruct (truthy s) eqn:Hs.
  - cbn [map echoed join]. rewrite Hs, IH. reflexivity.
  - rewrite IH, (truthy_false s Hs). reflexivity.
Qed.

End GeneratorFacts.

Section StreamingClaims.
Import Py OpenAI InferenceRequest RunnerRuns.

(** C7.  The sink falls behind the accumulator when a turn of the loop is
    cut short after line 48, which extends the accumulator, and before
    lines 49 and 50, which write and flush: the inner handler catches the
    exception and the loop goes on.  The pieces are "Hel", "lo" and
    ", world", the timeout is 60 seconds, and the alarm goes off during
    the second turn just before line 49.  From that point of stream
    consumption on the accumulator is ahead of the sink: the call returns
    "Hello, world" and leaves "Hel, world" in the file.  The same happens
    when writing a piece raises: the piece is returned and is missing
    from the file. *)
Theorem sink_falls_behind_accumulator :
  map (fun st => (full_response st, durable (response_file st)))
      (consumption_states (local_client alarm_cuts_turn) (Some "m"%string) "hi"
                          default_temperature true 60 fresh)
  = [(EmptyString, EmptyString); ("Hel", "Hel"); ("Hello", "Hel");
     ("Hello, world", "Hel, world")]%string
  /\ fst (create_completion (local_client alarm_cuts_turn) (Some "m"%string) "hi"
                            default_temperature true 60 fresh)
     = Returned (Some "Hello, world"%string)
  /\ response_file
       (snd (create_completion (local_client alarm_cuts_turn) (Some "m"%string)
                               "hi" default_temperature true 60 fresh))
     = mkFile "Hel, world" EmptyString false
  /\ ~ Forall in_sync
             (consumption_states (local_client alarm_cuts_turn) (Some "m"%string)
                                 "hi" default_temperature true 60 fresh)
  /\ ~ in_sync (snd (create_completion (local_client alarm_cuts_turn)
                                       (Some "m"%string) "hi" default_temperature
                                       true 60 fresh))
  /\ fst (create_completion (local_client unwritable_piece) (Some "m"%string) "hi"
                            default_temperature true 60 fresh)
     = Returned (Some "Hel?lo"%string)
  /\ response_file
       (snd (create_completion (local_client unwritable_piece) (Some "m"%string)
                               "hi" default_temperature true 60 fresh))
     = mkFile "Hello" EmptyString false.
Proof.
  split; [reflexivity |]. split; [reflexivity |]. split; [reflexivity |].
  split; [| split; [| split; reflexivity]].
  - intros Hall. vm_compute in Hall.
    inversion Hall as [| ? ? _ Hall1]. inversion Hall1 as [| ? ? _ Hall2].
    inversion Hall2 as [| ? ? [Hbad _] _]. discriminate Hbad.
  - intros [Hbad _]. vm_compute in Hbad. discriminate Hbad.
Qed.



(** The scenario of the specification: "Hello", ", ", "world", then the
    end of the stream. *)
Example hello_world_completes :
  fst (create_completion (local_client hello_world) (Some "m"%string) "hi"
                         default_temperature true 60 fresh)
  = Returned (Some "Hello, world"%string).
Proof. reflexivity. Qed.

(** The accumulator at the successive points of that run. *)
Example hello_world_points :
  map full_response
      (consumption_states (local_client hello_world) (Some "m"%string) "hi"
                          default_temperature true 60 fresh)
  = [EmptyString; "Hello"; "Hello, "; "Hello, world"]%string.
Proof. reflexivity. Qed.



(** Silence while the connection is set up ends the same way, with an
    empty sink. *)
Example connection_stall_times_out :
  let run :=
    create_completion (local_client (fun _ => CreateStalls)) (Some "m"%string)
                      "hi" default_temperature true 60 fresh in
  fst run = Returned None
  /\ response_file (snd run) = mkFile EmptyString EmptyString false
  /\ pulls (snd run) = 0%nat.
Proof. repeat split. Qed.

(** With a zero timeout no alarm is armed, and a silent service blocks
    the call for ever. *)
Example zero_timeout_never_returns :
  fst (create_completion (local_client stalls_at_once) (Some "m"%string) "hi"
                         default_temperature true 0 fresh)
  = Blocked.
Proof. reflexivity. Qed.

End StreamingClaims.

Section EntryPointClaims.
Import Py OpenAI InferenceRequest.

(** When the prompt file cannot be read, [main] reports the error and
    returns without contacting the service. *)
Lemma unreadable_prompt_is_rejected (env : Env) (st : St) (key : string) (e : exn) :
  INFERENCE_API_KEY env = Some key ->
  prompt_txt env = inl e ->
  fst (main env st) = Returned None
  /\ requests (snd (main env st)) = requests st
  /\ hd_error (log (snd (main env st)))
     = Some (Print ("Error: Prompt is empty" ++ LF)).
Proof.
  intros Hkey Hprompt.
  unfold main, call, main_body, try_except, bind, first_four, get_prompt, print,
    print_exc, stdout_flush, do, ret, return_.
  rewrite Hkey, Hprompt. cbn. repeat split.
Qed.

(** C6.  A prompt file that holds only white space gives the empty
    prompt; [main] does not reject it: it sends the service a request whose
    prompt is the empty string. *)
Theorem empty_prompt_reaches_capability
        (env : Env) (st : St) (key text : string) :
  INFERENCE_API_KEY env = Some key ->
  prompt_txt env = inr text ->
  strip text = EmptyString ->
  requests (snd (main env st))
  = requests st
      ++ [mkRequest (INFERENCE_API_MODEL env) EmptyString
                    (Some default_temperature) default_stream].
Proof.
  intros Hkey Hprompt Hstrip.
  unfold main, call, main_body, try_except, bind, first_four, get_prompt, print,
    print_exc, stdout_flush, do, ret, return_.
  rewrite Hkey, Hprompt, Hstrip. cbn -[create_completion].
  match goal with
  | |- context [create_completion ?c ?m ?p ?t ?s ?n ?st0] =>
      pose proof (create_completion_sends_request c m p t s n st0) as Hreq;
      destruct (create_completion c m p t s n st0) as [[[v |] | e |] st1]
  end;
    unfold requests in *; cbn in *; apply Hreq; lia.
Qed.

Lemma empty_prompt_reaches_capability_witness :
  requests (snd (main blank_prompt_env fresh))
  = [mkRequest (Some "test-model"%string) EmptyString
               (Some default_temperature) default_stream].
Proof.
  apply (empty_prompt_reaches_capability blank_prompt_env fresh
           "sk-test-0000" ("  " ++ LF)); reflexivity.
Defined.

End EntryPointClaims.

(** * Further properties *)

(** ** The retry wrapper, for every operation *)

Section RetryRunFacts.
Import Py ErrorHandler RetryRuns.
Context {W T : Type}.
Variable func : W -> Outcome T * W.
Variables max_retries max_delay : Z.

Local Abbreviation loop := (ErrorHandler.loop func max_retries max_delay).

(** Every run is a number of failed attempts followed by one of three
    endings: the budget is used up; a call settles the matter; or
    [time.sleep] rejects the delay. *)
Lemma loop_shape :
  forall (n : nat) retries delay w,
    Z.to_nat (max_retries - retries) = n ->
    let r := loop retries delay w in
    exists (k : nat) tail,
      trace r = failed_attempts max_delay delay k ++ tail
      /\ retries_at_exit r = retries + Z.of_nat k
      /\ ((tail = [] /\ k = n)
          \/ (tail = [EvCall] /\ (k < n)%nat)
          \/ (tail = [EvCall; EvWarning warning_message] /\ (k < n)%nat)).
Proof.
  induction n as [| n IH]; intros retries delay w Hn.
  - exists 0%nat, []. rewrite loop_exhausted by lia. cbn.
    repeat split; [lia | now left].
  - assert (Hlt : retries < max_retries) by lia.
    destruct (func w) as [[v | error] w1] eqn:Hf.
    + exists 0%nat, [EvCall]. rewrite (loop_returns _ _ _ _ _ _ _ _ Hlt Hf). cbn.
      repeat split; [lia | right; left; split; [reflexivity | lia]].
    + destruct (isinstance_RetryableError error) eqn:Hcls.
      * destruct (sleep_rejects delay) as [sleep_exception |] eqn:Hsleep.
        -- exists 0%nat, [EvCall; EvWarning warning_message].
           rewrite (loop_sleep_rejected _ _ _ _ _ _ _ _ _ Hlt Hf Hcls Hsleep). cbn.
           repeat split; [lia | right; right; split; [reflexivity | lia]].
        -- rewrite (loop_retries _ _ _ _ _ _ _ _ Hlt Hf Hcls Hsleep).
           destruct (IH (retries + 1) (Z.min (delay * 2) max_delay) w1)
             as (k & tail & Htr & Hex & Hend); [lia |].
           exists (S k), tail. cbn [after trace retries_at_exit].
           rewrite Htr, Hex. cbn [failed_attempts]. rewrite <- app_assoc.
           repeat split; [lia |].
           destruct Hend as [[-> ->] | [[-> Hk] | [-> Hk]]];
             [left | right; left | right; right]; split; (reflexivity || lia).
      * exists 0%nat, [EvCall]. rewrite (loop_propagates _ _ _ _ _ _ _ _ Hlt Hf Hcls).
        cbn. repeat split; [lia | right; left; split; [reflexivity | lia]].
Qed.


(** The delays of consecutive failed attempts never decrease and stay
    between the first one and the cap. *)
Lemma failed_attempts_sleeps_sorted :
  forall (k : nat) delay,
    0 <= delay <= max_delay ->
    Forall (fun d => delay <= d <= max_delay)
           (sleeps (failed_attempts max_delay delay k))
    /\ StronglySorted Z.le (sleeps (failed_attempts max_delay delay k)).
Proof.
  induction k as [| k IH]; intros delay Hd; cbn [failed_attempts app sleeps].
  - split; constructor.
  - destruct (IH (Z.min (delay * 2) max_delay)) as [Hall Hsorted]; [lia |].
    assert (Hweak : Forall (fun d => delay <= d <= max_delay)
                           (sleeps (failed_attempts max_delay
                                      (Z.min (delay * 2) max_delay) k))).
    { eapply Forall_impl; [| exact Hall]. cbn. intros d Hb. lia. }
    split.
    + constructor; [lia | exact Hweak].
    + constructor; [exact Hsorted |].
      eapply Forall_impl; [| exact Hweak]. cbn. intros d Hb. lia.
Qed.

(** Once the delay has reached the cap it stays there. *)
Lemma failed_attempts_sleeps_at_cap :
  0 <= max_delay ->
  forall k : nat,
    sleeps (failed_attempts max_delay max_delay k) = repeat max_delay k.
Proof.
  intros Hmax. induction k as [| k IH]; [reflexivity |].
  cbn [failed_attempts app sleeps repeat].
  replace (Z.min (max_delay * 2) max_delay) with max_delay by lia.
  rewrite IH. reflexivity.
Qed.

(** The wrapper never sleeps a negative time: [time.sleep] would not have
    it. *)
Lemma loop_sleeps_nonneg :
  forall (n : nat) retries delay w,
    Z.to_nat (max_retries - retries) = n ->
    Forall (fun d => 0 <= d) (sleeps (trace (loop retries delay w))).
Proof.
  induction n as [| n IH]; intros retries delay w Hn.
  - rewrite loop_exhausted by lia. constructor.
  - assert (Hlt : retries < max_retries) by lia.
    destruct (func w) as [[v | error] w1] eqn:Hf.
    + rewrite (loop_returns _ _ _ _ _ _ _ _ Hlt Hf). constructor.
    + destruct (isinstance_RetryableError error) eqn:Hcls.
      * destruct (sleep_rejects delay) as [sleep_exception |] eqn:Hsleep.
        -- rewrite (loop_sleep_rejected _ _ _ _ _ _ _ _ _ Hlt Hf Hcls Hsleep).
           constructor.
        -- rewrite (loop_retries _ _ _ _ _ _ _ _ Hlt Hf Hcls Hsleep).
           cbn [after trace app sleeps].
           constructor; [apply sleep_accepted_range, Hsleep |].
           apply IH. lia.
      * rewrite (loop_propagates _ _ _ _ _ _ _ _ Hlt Hf Hcls). constructor.
Qed.

End RetryRunFacts.

Section RetryBudgets.
Import Py ErrorHandler RetryRuns.
Context {W T : Type}.
Variable func : W -> Outcome T * W.
Variables small large max_delay : Z.

(** A loop that ends before its counter reaches the budget runs the same
    way under any larger budget. *)
Lemma loop_budget_monotone :
  small <= large ->
  forall (n : nat) retries delay w,
    Z.to_nat (small - retries) = n ->
    retries_at_exit (loop func small max_delay retries delay w) < small ->
    loop func large max_delay retries delay w
    = loop func small max_delay retries delay w.
Proof.
  intros Hle. induction n as [| n IH]; intros retries delay w Hn Hexit.
  - rewrite loop_exhausted in Hexit by lia. cbn in Hexit. lia.
  - assert (Hlt : retries < small) by lia.
    assert (Hlt' : retries < large) by lia.
    destruct (func w) as [[v | error] w1] eqn:Hf.
    + rewrite (loop_returns _ _ _ _ _ _ _ _ Hlt Hf).
      apply loop_returns; assumption.
    + destruct (isinstance_RetryableError error) eqn:Hcls.
      * destruct (sleep_rejects delay) as [sleep_exception |] eqn:Hsleep.
        -- rewrite (loop_sleep_rejected _ _ _ _ _ _ _ _ _ Hlt Hf Hcls Hsleep).
           apply loop_sleep_rejected with (error := error); assumption.
        -- rewrite (loop_retries _ _ _ _ _ _ _ _ Hlt Hf Hcls Hsleep) in Hexit |- *.
           rewrite (loop_retries _ _ _ _ _ _ _ _ Hlt' Hf Hcls Hsleep).
           cbn [after retries_at_exit] in Hexit.
           rewrite (IH (retries + 1) (Z.min (delay * 2) max_delay) w1)
             by (lia || assumption).
           reflexivity.
      * rewrite (loop_propagates _ _ _ _ _ _ _ _ Hlt Hf Hcls).
        apply loop_propagates; assumption.
Qed.

End RetryBudgets.

Section RetryRunProperties.
Import Py ErrorHandler RetryRuns.
Context {W T : Type}.
Variable func : W -> Outcome T * W.
Variables max_retries base_delay max_delay : Z.
Variable w : W.

Local Abbreviation run :=
  (retry_with_backoff func max_retries base_delay max_delay w).

Lemma sleeps_of_run_shape (k : nat) tail delay :
  tail = [] \/ tail = [EvCall] \/ tail = [EvCall; EvWarning warning_message] ->
  sleeps (failed_attempts max_delay delay k ++ tail)
  = sleeps (failed_attempts max_delay delay k).
Proof.
  intros Htail. rewrite sleeps_app.
  destruct Htail as [-> | [-> | ->]]; cbn; apply app_nil_r.
Qed.

(** X1.  Whatever the operation does and whatever the parameters are, the
    wrapper never invokes it more than [max_retries] times (never, when
    [max_retries] is negative), never sleeps more often than it has
    called, and its counter [retries] ends at the number of sleeps it has
    completed. *)
Theorem retry_stays_within_budget :
  calls (trace run) <= Z.max 0 max_retries
  /\ Z.of_nat (List.length (sleeps (trace run))) <= calls (trace run)
  /\ retries_at_exit run = Z.of_nat (List.length (sleeps (trace run))).
Proof.
  unfold retry_with_backoff.
  destruct (loop_shape func max_retries max_delay _ 0 base_delay w eq_refl)
    as (k & tail & Htr & Hex & Hend).
  rewrite Htr, Hex, calls_app, failed_attempts_calls.
  rewrite sleeps_of_run_shape
    by (destruct Hend as [[-> _] | [[-> _] | [-> _]]]; auto).
  rewrite failed_attempts_sleeps.
  destruct Hend as [[-> Hk] | [[-> Hk] | [-> Hk]]]; unfold calls; cbn; lia.
Qed.


(** X3.  With [0 <= base_delay <= max_delay], in every run the delays
    slept never decrease, and each lies between [base_delay] and
    [max_delay]. *)
Theorem retry_delays_sorted_and_capped :
  0 <= base_delay <= max_delay ->
  Forall (fun d => base_delay <= d <= max_delay) (sleeps (trace run))
  /\ StronglySorted Z.le (sleeps (trace run)).
Proof.
  intros Hbase. unfold retry_with_backoff.
  destruct (loop_shape func max_retries max_delay _ 0 base_delay w eq_refl)
    as (k & tail & Htr & _ & Hend).
  rewrite Htr.
  rewrite sleeps_of_run_shape
    by (destruct Hend as [[-> _] | [[-> _] | [-> _]]]; auto).
  apply failed_attempts_sleeps_sorted. exact Hbase.
Qed.

(** X4.  With [0 <= base_delay <= max_delay], a run never sleeps longer
    in total than [max_retries] times [max_delay] (not at all when
    [max_retries] is not positive). *)
Theorem retry_total_sleep_bounded :
  0 <= base_delay <= max_delay ->
  total_slept (trace run) <= Z.max 0 max_retries * max_delay.
Proof.
  intros Hbase. unfold total_slept, retry_with_backoff.
  destruct (loop_shape func max_retries max_delay _ 0 base_delay w eq_refl)
    as (k & tail & Htr & _ & Hend).
  rewrite Htr.
  rewrite sleeps_of_run_shape
    by (destruct Hend as [[-> _] | [[-> _] | [-> _]]]; auto).
  destruct (failed_attempts_sleeps_sorted max_delay k base_delay Hbase)
    as [Hall _].
  pose proof (failed_attempts_sleeps max_delay k base_delay) as Hlen.
  assert (Hsum : forall l, Forall (fun d => base_delay <= d <= max_delay) l ->
                           fold_right Z.add 0 l <= Z.of_nat (List.length l) * max_delay).
  { induction l as [| d l IH]; intros Hl; [cbn; lia |].
    inversion Hl as [| ? ? Hd Hl']; subst. specialize (IH Hl').
    cbn [fold_right List.length]. lia. }
  specialize (Hsum _ Hall). rewrite Hlen in Hsum.
  assert (Hk : Z.of_nat k <= Z.max 0 max_retries)
    by (destruct Hend as [[_ Hk] | [[_ Hk] | [_ Hk]]]; lia).
  nia.
Qed.

(** X5.  The cap is not applied to the first delay: with
    [base_delay > max_delay >= 0], the first sleep of a run lasts
    [base_delay], and every later one [max_delay]. *)
Theorem first_delay_is_not_capped :
  0 <= max_delay < base_delay ->
  sleeps (trace run) = []
  \/ exists j : nat, sleeps (trace run) = base_delay :: repeat max_delay j.
Proof.
  intros Hcap. unfold retry_with_backoff.
  destruct (loop_shape func max_retries max_delay _ 0 base_delay w eq_refl)
    as (k & tail & Htr & _ & Hend).
  rewrite Htr.
  rewrite sleeps_of_run_shape
    by (destruct Hend as [[-> _] | [[-> _] | [-> _]]]; auto).
  destruct k as [| k]; [left; reflexivity | right].
  exists k. cbn [failed_attempts app sleeps].
  replace (Z.min (base_delay * 2) max_delay) with max_delay by lia.
  rewrite failed_attempts_sleeps_at_cap by lia. reflexivity.
Qed.

(** X6.  A negative delay parameter stops the retrying, because
    [time.sleep] raises on a negative argument: with a negative
    [max_delay] no run makes more than two calls or sleeps more than
    once, and with a negative [base_delay] no run makes more than one
    call or sleeps at all. *)
Theorem negative_delay_stops_retrying :
  base_delay < 0 \/ max_delay < 0 ->
  calls (trace run) <= 2
  /\ (List.length (sleeps (trace run)) <= 1)%nat
  /\ (base_delay < 0 -> calls (trace run) <= 1 /\ sleeps (trace run) = []).
Proof.
  intros Hneg. unfold retry_with_backoff.
  pose proof (loop_sleeps_nonneg func max_retries max_delay _ 0 base_delay w
                eq_refl) as Hnonneg.
  destruct (loop_shape func max_retries max_delay _ 0 base_delay w eq_refl)
    as (k & tail & Htr & _ & Hend).
  rewrite Htr in Hnonneg |- *.
  rewrite sleeps_of_run_shape in Hnonneg |- *
    by (destruct Hend as [[-> _] | [[-> _] | [-> _]]]; auto).
  rewrite calls_app, failed_attempts_calls.
  assert (Htail : calls tail <= 1)
    by (destruct Hend as [[-> _] | [[-> _] | [-> _]]]; unfold calls; cbn; lia).
  destruct k as [| [| k]].
  - cbn [failed_attempts sleeps List.length].
    split; [lia | split; [lia |]]. intros _. split; [lia | reflexivity].
  - cbn [failed_attempts app sleeps List.length] in Hnonneg |- *.
    inversion Hnonneg as [| ? ? Hd _]; subst.
    split; [lia | split; [lia |]]. intros Hbase. lia.
  - exfalso. cbn [failed_attempts app sleeps] in Hnonneg.
    inversion Hnonneg as [| ? ? Hd Hrest]; subst.
    inversion Hrest as [| ? ? Hd' _]; subst. lia.
Qed.

(** X7.  Raising the budget does not change a run that ended within it:
    when a run with [max_retries] exits with its counter below
    [max_retries], the run with any larger budget is the same run. *)
Theorem larger_budget_same_run (larger : Z) :
  max_retries <= larger ->
  retries_at_exit run < max_retries ->
  retry_with_backoff func larger base_delay max_delay w = run.
Proof.
  intros Hle Hexit. unfold retry_with_backoff in *.
  apply (loop_budget_monotone func max_retries larger max_delay Hle
           (Z.to_nat (max_retries - 0)) 0 base_delay w eq_refl Hexit).
Qed.

End RetryRunProperties.

Section RetryRunWitnesses.
Import Py ErrorHandler RetryRuns.


Lemma retry_delays_sorted_and_capped_witness :
  0 <= 1 <= 60
  /\ Forall (fun d => 1 <= d <= 60)
            (sleeps (trace (retry_with_backoff always_retryable 8 1 60 tt)))
  /\ StronglySorted Z.le
                    (sleeps (trace (retry_with_backoff always_retryable 8 1 60 tt))).
Proof.
  split; [lia |].
  apply (retry_delays_sorted_and_capped always_retryable 8 1 60 tt). lia.
Defined.

Lemma retry_total_sleep_bounded_witness :
  0 <= 1 <= 60
  /\ total_slept (trace (retry_with_backoff always_retryable 8 1 60 tt))
     <= Z.max 0 8 * 60.
Proof.
  split; [lia |].
  apply (retry_total_sleep_bounded always_retryable 8 1 60 tt). lia.
Defined.

Lemma first_delay_is_not_capped_witness :
  0 <= 60 < 100
  /\ (sleeps (trace (retry_with_backoff always_retryable 3 100 60 tt)) = []
      \/ exists j : nat,
           sleeps (trace (retry_with_backoff always_retryable 3 100 60 tt))
           = 100 :: repeat 60 j).
Proof.
  split; [lia |].
  apply (first_delay_is_not_capped always_retryable 3 100 60 tt). lia.
Defined.

Lemma negative_delay_stops_retrying_witness :
  calls (trace (retry_with_backoff always_retryable 3 1 (-60) tt)) <= 2
  /\ (List.length
        (sleeps (trace (retry_with_backoff always_retryable 3 1 (-60) tt))) <= 1)%nat
  /\ (1 < 0 ->
      calls (trace (retry_with_backoff always_retryable 3 1 (-60) tt)) <= 1
      /\ sleeps (trace (retry_with_backoff always_retryable 3 1 (-60) tt)) = []).
Proof.
  apply (negative_delay_stops_retrying always_retryable 3 1 (-60) tt). lia.
Defined.

Lemma larger_budget_same_run_witness :
  retry_with_backoff fails_then_succeeds 10 1 60 2%nat
  = retry_with_backoff fails_then_succeeds 3 1 60 2%nat.
Proof.
  apply (larger_budget_same_run fails_then_succeeds 3 1 60 2%nat 10).
  - lia.
  - vm_compute. reflexivity.
Defined.

(** What those runs look like. *)
Example uncapped_first_delay_run :
  sleeps (trace (retry_with_backoff always_retryable 3 100 60 tt)) = [100; 60; 60].
Proof. reflexivity. Qed.

Example negative_cap_run :
  retry_with_backoff always_retryable 3 1 (-60) tt
  = mkRun (Raises sleep_error)
          [EvCall; EvWarning warning_message; EvSleep 1;
           EvCall; EvWarning warning_message] tt 1.
Proof. reflexivity. Qed.

End RetryRunWitnesses.

(** ** The timed runner, for every service *)

Section RunnerRunFacts.
Import Py OpenAI InferenceRequest RunnerRuns.

Lemma items_decompose (items : list Item) :
  items = map Deliver (leading_chunks items) ++ after_leading items.
Proof.
  induction items as [| [chunk | chunk trouble | e |] items IH]; cbn;
    [| f_equal; exact IH | | |]; reflexivity.
Qed.

Lemma after_leading_cases (items : list Item) :
  undisturbed items = true ->
  after_leading items = []
  \/ (exists e rest, after_leading items = Fail e :: rest)
  \/ (exists rest, after_leading items = Stall :: rest).
Proof.
  induction items as [| [chunk | chunk trouble | e |] items IH]; cbn; intros Hcalm.
  - left. reflexivity.
  - exact (IH Hcalm).
  - discriminate.
  - right. left. eauto.
  - right. right. eauto.
Qed.

Lemma fits_C_int_range n : fits_C_int n = true -> INT_MIN <= n <= INT_MAX.
Proof. unfold fits_C_int. intros H. apply andb_true_iff in H. lia. Qed.

(** The loop takes in the leading chunks and goes on with the first item
    that is not a chunk. *)
Lemma for_chunk_in_leading items st :
  in_sync st ->
  exists st',
    for_chunk_in items st = for_chunk_in (after_leading items) st'
    /\ advanced (List.length (leading_chunks items))
                (join (fragments (leading_chunks items))) st st'.
Proof.
  intros Hsync.
  destruct (for_chunk_in_delivers (leading_chunks items) (after_leading items)
              st Hsync) as (st' & Hloop & Hadv).
  exists st'. split; [| exact Hadv].
  rewrite <- Hloop, <- items_decompose. reflexivity.
Qed.

Section OneCall.
Variable client : Client.
Variable model : option string.
Variable prompt : string.
Variable temperature : Q.
Variable stream : bool.
Variable timeout_seconds : Z.
Variable st : St.

Local Abbreviation request := (mkRequest model prompt (Some temperature) stream).
Local Abbreviation run :=
  (create_completion client model prompt temperature stream timeout_seconds st).

(** What a call that nothing disturbs leaves to be seen, read off the
    timeout and the answer of the service. *)
Lemma create_completion_visible :
  calm (chat_completions_create client request) = true ->
  visible run = summary (chat_completions_create client request) timeout_seconds
  /\ pulls (snd run)
     = (pulls st
        + summary_pulls (chat_completions_create client request) timeout_seconds)%nat
  /\ (fits_C_int timeout_seconds = true -> alarm (snd run) = None).
Proof.
  intros Hcalm. unfold visible, summary, summary_pulls.
  destruct (fits_C_int timeout_seconds) eqn:Hfits.
  - pose proof (fits_C_int_range _ Hfits) as Hrange.
    destruct (chat_completions_create client request) as [items | e |] eqn:Hcreate.
    + destruct (before_loop_enters client model prompt temperature stream
                  timeout_seconds _ st Hrange Hcreate)
        as (st1 & Hbefore & Hfull1 & Hsync1 & Halarm1 & Hopen1 & Hpulls1 & _).
      rewrite (create_completion_from_loop _ _ _ _ _ _ _ _ _ Hbefore).
      destruct (for_chunk_in_leading items st1 Hsync1)
        as (st2 & Hloop & Hfull2 & [Hdur2 Hbuf2] & Halarm2 & Hopen2 & Hpulls2 & _).
      rewrite Hfull1 in Hfull2. cbn in Hfull2.
      destruct (after_leading_cases items Hcalm)
        as [Hend | [(e & rest & Hend) | (rest & Hend)]];
        rewrite Hend in Hloop |- *.
      * rewrite (after_loop_complete timeout_seconds _ st1 (emit NetNext st2))
          by (rewrite Hloop; reflexivity).
        unfold pulls, closed_with in *. cbn.
        rewrite Hbuf2, Hdur2, string_app_nil_r, Hfull2, Hpulls2, Hpulls1.
        repeat split. lia.
      * destruct (isinstance_TimeoutException e) eqn:Hcls.
        -- destruct e; try discriminate.
           rewrite (after_loop_timeout timeout_seconds _ st1 (emit NetNext st2) msg)
             by (rewrite Hloop; reflexivity).
           unfold pulls, closed_with in *. cbn.
           rewrite Hbuf2, Hdur2, string_app_nil_r, Hfull2, Hpulls2, Hpulls1.
           repeat split. lia.
        -- destruct (after_loop_error timeout_seconds (for_chunk_in items) st1
                       (emit NetNext st2) e)
             as (st3 & Hrun & Hfull3 & Hfile3 & Halarm3 & Hpulls3 & _);
             [rewrite Hloop; reflexivity | exact Hcls |].
           rewrite Hrun. cbn [fst snd]. rewrite Hfull3, Hfile3, Halarm3, Hpulls3.
           unfold pulls, closed_with in *. cbn.
           rewrite Hbuf2, Hdur2, string_app_nil_r, Hfull2, Hpulls2, Hpulls1.
           repeat split. lia.
      * unfold on_silence. rewrite Halarm1 in Halarm2.
        destruct (timeout_seconds =? 0).
        -- assert (Hstall : for_chunk_in (Stall :: rest) st2
                            = (Hang, emit NetNext st2)).
           { cbn [for_chunk_in].
    unfold iteration, blocked, alarm_goes_off, hang, bind, do. cbn.
             rewrite Halarm2. reflexivity. }
           rewrite (after_loop_hang timeout_seconds _ st1 (emit NetNext st2))
             by (rewrite Hloop; exact Hstall).
           assert (Hfile : response_file st2
                           = mkFile (join (fragments (leading_chunks items)))
                                    EmptyString true).
           { destruct (response_file st2) as [d b o].
             cbn in Hdur2, Hbuf2, Hopen2.
             rewrite Hopen1 in Hopen2. rewrite Hfull2 in Hdur2.
             rewrite Hdur2, Hbuf2, Hopen2. reflexivity. }
           unfold pulls in *.
           cbn [fst snd emit full_response response_file alarm log filter
                    is_next List.length].
           rewrite Hfull2, Hfile, Hpulls2, Hpulls1.
           repeat split; [lia | intros _; exact Halarm2].
        -- assert (Hstall : for_chunk_in (Stall :: rest) st2
                            = (Raise (timeout_exception timeout_seconds),
                               set_alarm None (emit NetNext st2))).
           { cbn [for_chunk_in].
    unfold iteration, blocked, alarm_goes_off, hang, bind, do. cbn.
             rewrite Halarm2. reflexivity. }
           rewrite (after_loop_timeout timeout_seconds _ st1
                      (set_alarm None (emit NetNext st2))
                      ("Timeout after " ++ str_int timeout_seconds ++ " seconds"))
             by (rewrite Hloop; exact Hstall).
           unfold pulls, closed_with in *. cbn.
           rewrite Hbuf2, Hdur2, string_app_nil_r, Hfull2, Hpulls2, Hpulls1.
           repeat split. lia.
    + unfold create_completion, create_completion_body,
        call, with_open, timeout, try_except, try_finally, header, print,
        stdout_flush, set_full_response, file_open, signal_alarm, create, bind, do, ret.
      cbn -[fits_C_int]. rewrite Hfits, Hcreate.
      destruct e; cbn; repeat split; unfold pulls; cbn; lia.
    + unfold create_completion, create_completion_body,
        call, with_open, timeout, try_except, try_finally, header, print,
        stdout_flush, set_full_response, file_open, signal_alarm, create, bind, do,
        ret, blocked, on_silence.
      cbn -[fits_C_int]. rewrite Hfits, Hcreate. cbn.
      destruct (timeout_seconds =? 0); cbn; repeat split; unfold pulls; cbn; lia.
  - unfold create_completion, create_completion_body,
      call, with_open, timeout, try_except, try_finally, header, print,
      stdout_flush, set_full_response, file_open, signal_alarm, create, bind, do, ret.
    cbn -[fits_C_int]. rewrite Hfits. cbn.
    repeat split; [unfold pulls; cbn; lia | discriminate].
Qed.

End OneCall.






(** How any call ends: it blocks, or it returns with the sink closed and
    flushed and no alarm left.  No exception leaves it. *)
Lemma create_completion_ends client model prompt temperature stream
      timeout_seconds st :
  fst (create_completion client model prompt temperature stream timeout_seconds st)
  = Blocked
  \/ (exists v,
         fst (create_completion client model prompt temperature stream
                                timeout_seconds st) = Returned v)
     /\ is_open (response_file
                   (snd (create_completion client model prompt temperature stream
                                           timeout_seconds st))) = false
     /\ buffer (response_file
                  (snd (create_completion client model prompt temperature stream
                                          timeout_seconds st))) = EmptyString
     /\ (fits_C_int timeout_seconds = true ->
         alarm (snd (create_completion client model prompt temperature stream
                                       timeout_seconds st)) = None).
Proof.
  destruct (fits_C_int timeout_seconds) eqn:Hfits.
  - pose proof (fits_C_int_range _ Hfits) as Hrange.
    destruct (chat_completions_create
                client (mkRequest model prompt (Some temperature) stream))
      as [items | e |] eqn:Hcreate.
    + destruct (before_loop_enters client model prompt temperature stream
                  timeout_seconds _ st Hrange Hcreate) as (st1 & Hbefore & _).
      rewrite (create_completion_from_loop _ _ _ _ _ _ _ _ _ Hbefore).
      destruct (after_loop_leaves timeout_seconds (for_chunk_in items) st1)
        as (_ & _ & [[Hblocked _] | (Hreturned & Hfile & Halarm)]).
      * left. exact Hblocked.
      * right. split; [exact Hreturned |]. rewrite Hfile.
        repeat split. intros _. exact Halarm.
    + right.
      unfold create_completion, create_completion_body,
        call, with_open, timeout, try_except, try_finally, header, print,
        stdout_flush, set_full_response, file_open, signal_alarm, create, bind, do, ret.
      cbn -[fits_C_int]. rewrite Hfits, Hcreate.
      destruct e; cbn; repeat split; eexists; reflexivity.
    + unfold create_completion, create_completion_body,
        call, with_open, timeout, try_except, try_finally, header, print,
        stdout_flush, set_full_response, file_open, signal_alarm, create, blocked,
        alarm_goes_off, hang, bind, do, ret.
      cbn -[fits_C_int]. rewrite Hfits, Hcreate. cbn.
      destruct (timeout_seconds =? 0); cbn; [left; reflexivity | right].
      repeat split. eexists. reflexivity.
  - right.
    unfold create_completion, create_completion_body,
      call, with_open, timeout, try_except, try_finally, header, print,
      stdout_flush, set_full_response, file_open, signal_alarm, create, bind, do, ret.
    cbn -[fits_C_int]. rewrite Hfits. cbn.
    repeat split; [eexists; reflexivity | discriminate].
Qed.

(** When a call blocks: the service goes silent while no alarm is
    pending, because the timeout is zero or because a turn of the loop has
    swallowed the alarm. *)
Lemma create_completion_blocks client model prompt temperature stream
      timeout_seconds st :
  fst (create_completion client model prompt temperature stream timeout_seconds st)
  = Blocked
  <-> goes_silent (chat_completions_create
                     client (mkRequest model prompt (Some temperature) stream))
      = true
      /\ (timeout_seconds = 0
          \/ (fits_C_int timeout_seconds = true
              /\ alarm_swallowed
                   (chat_completions_create
                      client (mkRequest model prompt (Some temperature) stream))
                 = true)).
Proof.
  destruct (fits_C_int timeout_seconds) eqn:Hfits.
  - pose proof (fits_C_int_range _ Hfits) as Hrange.
    destruct (chat_completions_create
                client (mkRequest model prompt (Some temperature) stream))
      as [items | e |] eqn:Hcreate.
    + destruct (before_loop_enters client model prompt temperature stream
                  timeout_seconds _ st Hrange Hcreate)
        as (st1 & Hbefore & _ & _ & Halarm1 & _).
      rewrite (create_completion_from_loop _ _ _ _ _ _ _ _ _ Hbefore).
      destruct (for_chunk_in_turns items st1) as (st2 & Hloop & Halarm2 & _).
      unfold goes_silent, alarm_swallowed.
      destruct (after_turns_cases items)
        as [Hend | [(e & rest & Hend) | (rest & Hend)]];
        rewrite Hend in Hloop |- *.
      * rewrite (after_loop_complete timeout_seconds _ st1 (emit NetNext st2))
          by (rewrite Hloop; reflexivity).
        split; [discriminate | intros [H _]; discriminate].
      * destruct (isinstance_TimeoutException e) eqn:Hcls.
        -- destruct e; try discriminate.
           rewrite (after_loop_timeout timeout_seconds _ st1 (emit NetNext st2) msg)
             by (rewrite Hloop; reflexivity).
           split; [discriminate | intros [H _]; discriminate].
        -- destruct (after_loop_error timeout_seconds (for_chunk_in items) st1
                       (emit NetNext st2) e) as (st3 & Hrun & _);
             [rewrite Hloop; reflexivity | exact Hcls |].
           rewrite Hrun.
           split; [discriminate | intros [H _]; discriminate].
      * destruct (alarm st2) as [seconds |] eqn:Hpending.
        -- assert (Hstall : for_chunk_in (Stall :: rest) st2
                            = (Raise (timeout_exception seconds),
                               set_alarm None (emit NetNext st2))).
           { cbn [for_chunk_in].
             unfold iteration, blocked, alarm_goes_off, hang, bind, do. cbn.
             rewrite Hpending. reflexivity. }
           rewrite (after_loop_timeout timeout_seconds _ st1
                      (set_alarm None (emit NetNext st2))
                      ("Timeout after " ++ str_int seconds ++ " seconds"))
             by (rewrite Hloop; exact Hstall).
           split; [discriminate |].
           rewrite Halarm1 in Halarm2.
           intros [_ [Hzero | [_ Hlost]]].
           ++ subst timeout_seconds. cbn in Halarm2.
              destruct (existsb swallows_alarm (turns items)); discriminate.
           ++ rewrite Hlost in Halarm2. discriminate.
        -- assert (Hstall : for_chunk_in (Stall :: rest) st2
                            = (Hang, emit NetNext st2)).
           { cbn [for_chunk_in].
             unfold iteration, blocked, alarm_goes_off, hang, bind, do. cbn.
             rewrite Hpending. reflexivity. }
           rewrite (after_loop_hang timeout_seconds _ st1 (emit NetNext st2))
             by (rewrite Hloop; exact Hstall).
           split; [intros _ | reflexivity]. split; [reflexivity |].
           rewrite Halarm1 in Halarm2.
           destruct (existsb swallows_alarm (turns items));
             [right; split; reflexivity | left].
           destruct (Z.eqb_spec timeout_seconds 0); [assumption | discriminate].
    + unfold create_completion, create_completion_body,
        call, with_open, timeout, try_except, try_finally, header, print,
        stdout_flush, set_full_response, file_open, signal_alarm, create, bind, do, ret.
      cbn -[fits_C_int]. rewrite Hfits, Hcreate.
      destruct e; cbn; (split; [discriminate | intros [H _]; discriminate]).
    + unfold create_completion, create_completion_body,
        call, with_open, timeout, try_except, try_finally, header, print,
        stdout_flush, set_full_response, file_open, signal_alarm, create, blocked,
        alarm_goes_off, hang, bind, do, ret.
      cbn -[fits_C_int]. rewrite Hfits, Hcreate. cbn.
      destruct (Z.eqb_spec timeout_seconds 0) as [Hzero | Hnonzero]; cbn.
      * split; [intros _; split; [reflexivity | left; exact Hzero] | reflexivity].
      * split; [discriminate |].
        intros [_ [Hzero | [_ Hlost]]]; [contradiction | discriminate].
  - unfold create_completion, create_completion_body,
      call, with_open, timeout, try_except, try_finally, header, print,
      stdout_flush, set_full_response, file_open, signal_alarm, create, bind, do, ret.
    cbn -[fits_C_int]. rewrite Hfits. cbn.
    split; [discriminate |].
    intros [_ [Hzero | [Hyes _]]]; [| discriminate].
    subst timeout_seconds. vm_compute in Hfits. discriminate.
Qed.

(** A call keeps nothing of the state it starts from but the log. *)
Lemma create_completion_core client model prompt temperature stream
      timeout_seconds st1 st2 :
  visible (create_completion client model prompt temperature stream
                             timeout_seconds st1)
  = visible (create_completion client model prompt temperature stream
                               timeout_seconds st2).
Proof.
  unfold visible.
  destruct (fits_C_int timeout_seconds) eqn:Hfits.
  - pose proof (fits_C_int_range _ Hfits) as Hrange.
    destruct (chat_completions_create
                client (mkRequest model prompt (Some temperature) stream))
      as [items | e |] eqn:Hcreate.
    + destruct (before_loop_enters client model prompt temperature stream
                  timeout_seconds _ st1 Hrange Hcreate)
        as (st1' & Hbefore1 & Hfull1 & [Hdur1 Hbuf1] & Halarm1 & Hopen1 & _).
      destruct (before_loop_enters client model prompt temperature stream
                  timeout_seconds _ st2 Hrange Hcreate)
        as (st2' & Hbefore2 & Hfull2 & [Hdur2 Hbuf2] & Halarm2 & Hopen2 & _).
      rewrite (create_completion_from_loop _ _ _ _ _ _ _ _ _ Hbefore1).
      rewrite (create_completion_from_loop _ _ _ _ _ _ _ _ _ Hbefore2).
      assert (Hcore : same_core st1' st2').
      { unfold same_core. rewrite Hfull1, Hfull2, Halarm1, Halarm2.
        repeat split.
        destruct (response_file st1') as [d1 b1 o1],
                 (response_file st2') as [d2 b2 o2].
        cbn in *. congruence. }
      destruct (after_loop_core timeout_seconds items st1' st2' Hcore)
        as (Hexit & Hfull & Hfile).
      rewrite Hexit, Hfull, Hfile. reflexivity.
    + unfold create_completion, create_completion_body,
        call, with_open, timeout, try_except, try_finally, header, print,
        stdout_flush, set_full_response, file_open, signal_alarm, create, bind, do, ret.
      cbn -[fits_C_int]. rewrite Hfits, Hcreate.
      destruct e; reflexivity.
    + unfold create_completion, create_completion_body,
        call, with_open, timeout, try_except, try_finally, header, print,
        stdout_flush, set_full_response, file_open, signal_alarm, create, blocked,
        alarm_goes_off, hang, bind, do, ret.
      cbn -[fits_C_int]. rewrite Hfits, Hcreate. cbn.
      destruct (timeout_seconds =? 0); reflexivity.
  - unfold create_completion, create_completion_body,
      call, with_open, timeout, try_except, try_finally, header, print,
      stdout_flush, set_full_response, file_open, signal_alarm, create, bind, do, ret.
    cbn -[fits_C_int]. rewrite Hfits. reflexivity.
Qed.

End RunnerRunFacts.

Section RunnerRunProperties.
Import Py OpenAI InferenceRequest RunnerRuns.
Variable client : Client.
Variable model : option string.
Variable prompt : string.
Variable temperature : Q.
Variable stream : bool.
Variable timeout_seconds : Z.
Variable st : St.

Local Abbreviation request := (mkRequest model prompt (Some temperature) stream).
Local Abbreviation answer := (chat_completions_create client request).
Local Abbreviation run :=
  (create_completion client model prompt temperature stream timeout_seconds st).

(** X8.  No exception leaves [create_completion], whatever the client,
    the arguments and the state it is called in: every exception of the
    capability, of a chunk or of [signal.alarm] ends in one of its
    handlers. *)
Theorem create_completion_never_raises :
  forall e : exn, fst run <> Propagated e.
Proof.
  intros e.
  destruct (create_completion_ends client model prompt temperature stream
              timeout_seconds st) as [Hblocked | [[v Hreturned] _]];
    congruence.
Qed.

(** X9.  The call blocks for ever exactly when the service goes silent,
    during the connection or after some chunks, at a moment when no alarm
    is pending: either the timeout is zero, so that none was armed, or
    the alarm has gone off during an earlier turn inside the body of the
    loop, where the inner handler swallowed its exception.  In every
    other case the call returns. *)
Theorem blocks_only_without_alarm :
  fst (create_completion client model prompt temperature stream
                         timeout_seconds st)
  = Blocked
  <-> goes_silent answer = true
      /\ (timeout_seconds = 0
          \/ (fits_C_int timeout_seconds = true
              /\ alarm_swallowed answer = true)).
Proof. apply create_completion_blocks. Qed.

(** X10.  In a call that nothing disturbs (no alarm inside the body of
    the loop, no failing write), whenever a string is returned, that
    string is the accumulator and is exactly what the closed file
    holds. *)
Theorem returned_text_is_in_the_file (text : string) :
  calm answer = true ->
  fst (create_completion client model prompt temperature stream
                         timeout_seconds st)
  = Returned (Some text) ->
  full_response (snd run) = text
  /\ response_file (snd run) = mkFile text EmptyString false.
Proof.
  intros Hcalm.
  destruct (create_completion_visible client model prompt temperature stream
              timeout_seconds st Hcalm) as [Hvis _].
  unfold visible in Hvis. intros Hret. rewrite Hret in Hvis.
  unfold summary, on_silence, closed_with in Hvis.
  destruct (fits_C_int timeout_seconds); [| discriminate].
  destruct answer as [items | e |].
  - destruct (after_leading items) as [| [chunk | chunk trouble | e |] rest];
      try destruct (timeout_seconds =? 0); try discriminate;
      injection Hvis as Htext Hfull Hfile; subst text;
      split; congruence.
  - discriminate.
  - destruct (timeout_seconds =? 0); discriminate.
Qed.

(** X11.  A call that returns leaves the file closed with nothing in
    its buffer, and, when the timeout fits a C int, no alarm pending. *)
Theorem returned_call_releases_resources (v : option string) :
  fst run = Returned v ->
  is_open (response_file (snd run)) = false
  /\ buffer (response_file (snd run)) = EmptyString
  /\ (INT_MIN <= timeout_seconds <= INT_MAX -> alarm (snd run) = None).
Proof.
  intros Hret.
  destruct (create_completion_ends client model prompt temperature stream
              timeout_seconds st)
    as [Hblocked | (_ & Hopen & Hbuffer & Halarm)]; [congruence |].
  repeat split; try assumption.
  intros Hrange. apply Halarm, fits_C_int_true, Hrange.
Qed.


(** X13.  With a timeout that fits a C int, when the request itself
    fails the call returns [None] after exactly one request and without
    asking for any item; the file is left empty and closed. *)
Theorem connection_failure_returns_none (e : exn) :
  INT_MIN <= timeout_seconds <= INT_MAX ->
  answer = CreateFails e ->
  fst run = Returned None
  /\ response_file (snd run) = mkFile EmptyString EmptyString false
  /\ pulls (snd run) = pulls st
  /\ requests (snd run) = requests st ++ [request].
Proof.
  intros Hrange Hanswer.
  destruct (create_completion_visible client model prompt temperature stream
              timeout_seconds st) as (Hvis & Hpulls & _).
  { rewrite Hanswer. reflexivity. }
  unfold visible, summary, summary_pulls, closed_with in *.
  rewrite Hanswer, (fits_C_int_true _ Hrange) in Hvis, Hpulls.
  injection Hvis as Hexit _ Hfile.
  rewrite Hexit, Hfile, Hpulls, Nat.add_0_r.
  repeat split. apply create_completion_sends_request. exact Hrange.
Qed.


(** X15.  A timeout outside the range of a C int makes [signal.alarm]
    raise before anything is requested: the call returns [None], sends no
    request and asks for no item, but the file has already been
    truncated. *)
Theorem timeout_out_of_range_sends_nothing :
  timeout_seconds < INT_MIN \/ INT_MAX < timeout_seconds ->
  fst run = Returned None
  /\ requests (snd run) = requests st
  /\ pulls (snd run) = pulls st
  /\ response_file (snd run) = mkFile EmptyString EmptyString false.
Proof.
  intros Hout.
  assert (Hfits : fits_C_int timeout_seconds = false).
  { unfold fits_C_int. apply andb_false_iff.
    destruct Hout; [left | right]; apply Z.leb_gt; assumption. }
  unfold create_completion, create_completion_body,
    call, with_open, timeout, try_except, try_finally, header, print,
    stdout_flush, set_full_response, file_open, signal_alarm, create, bind, do, ret.
  cbn -[fits_C_int]. rewrite Hfits. cbn. repeat split.
Qed.

(** X24.  In a call that nothing disturbs (no alarm inside the body of
    the loop, no failing write), at every point of stream consumption (on
    entering the loop and after each turn of it) and when the call ends,
    what has reached the sink is exactly the accumulator and nothing is
    left in the file buffer. *)
Theorem calm_stream_keeps_sink_in_step :
  calm answer = true ->
  Forall in_sync
         (consumption_states client model prompt temperature stream
                             timeout_seconds st)
  /\ in_sync (snd (create_completion client model prompt temperature stream
                                     timeout_seconds st)).
Proof.
  intros Hcalm. unfold consumption_states.
  destruct (before_loop client model prompt temperature stream timeout_seconds st)
    as [[items | e | v |] st1] eqn:Hbefore.
  - pose proof (before_loop_in_sync _ _ _ _ _ _ _ _ _ Hbefore) as Hsync1.
    rewrite (before_loop_answer _ _ _ _ _ _ _ _ _ Hbefore) in Hcalm.
    cbn [calm] in Hcalm.
    split; [apply consumption_points_in_sync; assumption |].
    rewrite (create_completion_from_loop _ _ _ _ _ _ _ _ _ Hbefore).
    apply after_loop_keeps; assumption.
  - split; [constructor |].
    apply create_completion_without_loop. intros items st2. congruence.
  - split; [constructor |].
    apply create_completion_without_loop. intros items st2. congruence.
  - split; [constructor |].
    apply create_completion_without_loop. intros items st2. congruence.
Qed.

End RunnerRunProperties.

Section CallsInSequence.
Import Py OpenAI InferenceRequest RunnerRuns.

(** X16.  A call keeps nothing from what came before it: the way it
    ends, the accumulator and the file it leaves are the same whatever
    accumulator, file content, pending alarm and log it starts from. *)
Theorem result_independent_of_previous_state
        (client : Client) (model : option string) (prompt : string)
        (temperature : Q) (stream : bool) (timeout_seconds : Z)
        (st1 st2 : St) :
  let run1 :=
    create_completion client model prompt temperature stream timeout_seconds st1 in
  let run2 :=
    create_completion client model prompt temperature stream timeout_seconds st2 in
  fst run1 = fst run2
  /\ full_response (snd run1) = full_response (snd run2)
  /\ response_file (snd run1) = response_file (snd run2).
Proof.
  intros run1 run2. subst run1 run2.
  pose proof (create_completion_core client model prompt temperature stream
                timeout_seconds st1 st2) as Hvis.
  unfold visible in Hvis.
  injection Hvis as Hexit Hfull Hfile. repeat split; assumption.
Qed.

End CallsInSequence.

Section EntryPointProperties.
Import Py OpenAI InferenceRequest RunnerRuns.
Variable env : Env.
Variable st : St.

(** X17.  Without [INFERENCE_API_KEY], slicing the key raises inside
    [main]; its handler reports the error, and [main] returns without
    sending a request and without touching the file. *)
Theorem missing_key_is_reported :
  INFERENCE_API_KEY env = None ->
  fst (main env st) = Returned None
  /\ requests (snd (main env st)) = requests st
  /\ response_file (snd (main env st)) = response_file st
  /\ In (Print ("Unexpected error: 'NoneType' object is not subscriptable" ++ LF))
        (log (snd (main env st))).
Proof.
  intros Hkey.
  unfold main, call, main_body, try_except, bind, first_four, print,
    print_exc, stdout_flush, do, ret, raise.
  rewrite Hkey. cbn. repeat split. right. right. left. reflexivity.
Qed.

(** X18.  With a key and a readable prompt file, [main] sends exactly one
    request: the text of the file stripped of surrounding white space,
    the model of the environment, temperature 0.6 and streaming on. *)
Theorem main_sends_stripped_prompt (key text : string) :
  INFERENCE_API_KEY env = Some key ->
  prompt_txt env = inr text ->
  requests (snd (main env st))
  = requests st
      ++ [mkRequest (INFERENCE_API_MODEL env) (strip text)
                    (Some default_temperature) default_stream].
Proof.
  intros Hkey Hprompt.
  unfold main, call, main_body, try_except, bind, first_four, get_prompt, print,
    print_exc, stdout_flush, do, ret, return_.
  rewrite Hkey, Hprompt. cbn -[create_completion strip].
  match goal with
  | |- context [create_completion ?c ?m ?p ?t ?s ?n ?st0] =>
      pose proof (create_completion_sends_request c m p t s n st0) as Hreq;
      destruct (create_completion c m p t s n st0) as [[[v |] | e |] st1]
  end;
    unfold requests in *; cbn -[strip] in *; apply Hreq; lia.
Qed.

(** X19.  No exception leaves [main], and when it returns it returns
    [None].  It blocks for ever in one case only: the key and the prompt
    are there, and the service goes silent after a turn of the loop has
    swallowed the alarm of the 900-second timeout. *)
Theorem main_returns_none_or_blocks :
  (fst (main env st) = Returned None \/ fst (main env st) = Blocked)
  /\ (fst (main env st) = Blocked
      <-> exists key text,
            INFERENCE_API_KEY env = Some key
            /\ prompt_txt env = inr text
            /\ goes_silent (service env (main_request env text)) = true
            /\ alarm_swallowed (service env (main_request env text)) = true).
Proof.
  unfold main, call, main_body, try_except, bind, first_four, get_prompt, print,
    print_exc, stdout_flush, do, ret, return_, raise.
  destruct (INFERENCE_API_KEY env) as [key |].
  - destruct (prompt_txt env) as [e | text].
    + split; [left; reflexivity |].
      split; [discriminate | intros (k & t & _ & H & _); discriminate].
    + cbn -[create_completion strip].
      match goal with
      | |- context [create_completion ?c ?m ?p ?t ?s ?n ?st0] =>
          pose proof (create_completion_ends c m p t s n st0) as Hends;
          pose proof (create_completion_blocks c m p t s n st0) as Hblocks;
          destruct (create_completion c m p t s n st0) as [ex st1]
      end.
      cbn [fst snd OpenAI_ chat_completions_create] in Hends, Hblocks.
      fold (main_request env text) in Hblocks.
      destruct ex as [[v |] | e |]; cbn [fst].
      * split; [left; reflexivity |].
        split; [discriminate |].
        intros (k & t & _ & Ht & Hsilent & Hlost).
        injection Ht as <-.
        assert (Hno : Returned (Some v) = Blocked); [| discriminate].
        apply Hblocks. split; [exact Hsilent | right]. split; [reflexivity | exact Hlost].
      * split; [left; reflexivity |].
        split; [discriminate |].
        intros (k & t & _ & Ht & Hsilent & Hlost).
        injection Ht as <-.
        assert (Hno : Returned None = Blocked); [| discriminate].
        apply Hblocks. split; [exact Hsilent | right]. split; [reflexivity | exact Hlost].
      * exfalso. destruct Hends as [H | [[v H] _]]; discriminate.
      * split; [right; reflexivity |].
        split; [intros _ | reflexivity].
        exists key, text.
        destruct Hblocks as [Hwhy _].
        destruct (Hwhy eq_refl) as [Hsilent [Hzero | [_ Hlost]]];
          [discriminate |].
        repeat split; assumption.
  - split; [left; reflexivity |].
    split; [discriminate | intros (k & t & H & _); discriminate].
Qed.

(** X20.  When reading the prompt file raises, [get_prompt] reports the
    error and gives [None]; [main] then prints its own error line and
    returns without sending a request and without touching the file. *)
Theorem unreadable_prompt_sends_nothing (key : string) (e : exn) :
  INFERENCE_API_KEY env = Some key ->
  prompt_txt env = inl e ->
  fst (main env st) = Returned None
  /\ requests (snd (main env st)) = requests st
  /\ response_file (snd (main env st)) = response_file st
  /\ firstn 3 (log (snd (main env st)))
     = [Print ("Error: Prompt is empty" ++ LF);
        PrintExc;
        Print (("Error reading prompt: " ++ str_exn e) ++ LF)].
Proof.
  intros Hkey Hprompt.
  unfold main, call, main_body, try_except, bind, first_four, get_prompt, print,
    print_exc, stdout_flush, do, ret, return_.
  rewrite Hkey, Hprompt. cbn. repeat split.
Qed.

End EntryPointProperties.

(** ** The generator of main.py, for every service *)

Section GeneratorRunFacts.
Import Py OpenAI StreamingClient GeneratorRuns.

(** The generator on a run of text chunks, whatever follows them. *)
Lemma generator_on_leading_texts (frags : list string) (rest : list Item) :
  let g := for_chunk_in (map Deliver (map text_chunk frags) ++ rest) in
  yielded g = map Some (filter truthy frags) ++ yielded (for_chunk_in rest)
  /\ printed g = printed (for_chunk_in rest)
  /\ finishes g = finishes (for_chunk_in rest).
Proof.
  induction frags as [| s frags IH]; [repeat split |].
  cbn [map app for_chunk_in text_chunk get_content content filter].
  destruct IH as (Hy & Hp & Hf).
  destruct (truthy s); cbn [yield yielded printed finishes map app];
    rewrite ?Hy; repeat split; assumption.
Qed.

Lemma generator_interrupted (item : Item) (rest : list Item) :
  interrupts item = true ->
  for_chunk_in (item :: rest) = handler.
Proof.
  destruct item as [chunk | chunk trouble | e |]; cbn;
    [| | reflexivity | discriminate];
    unfold breaks; destruct (get_content chunk); (reflexivity || discriminate).
Qed.

(** What the generator yields, for any response: texts that are not
    empty, then possibly one [None]. *)
Lemma generator_shape (response : list Item) :
  exists texts,
    Forall (fun text => truthy text = true) texts
    /\ ((yielded (for_chunk_in response) = map Some texts
         /\ printed (for_chunk_in response) = [])
        \/ (yielded (for_chunk_in response) = map Some texts ++ [None]
            /\ printed (for_chunk_in response) = [(stream_error_message ++ LF)%string]
            /\ finishes (for_chunk_in response) = true)).
Proof.
  assert (Hchunk : forall chunk response,
             for_chunk_in (Deliver chunk :: response)
             = match get_content chunk with
               | inl _ => handler
               | inr (Some text) =>
                   if truthy text then yield (Some text) (for_chunk_in response)
                   else for_chunk_in response
               | inr None => for_chunk_in response
               end) by reflexivity.
  assert (Hsame : forall chunk trouble response,
             for_chunk_in (Disturbed chunk trouble :: response)
             = for_chunk_in (Deliver chunk :: response)) by reflexivity.
  induction response as [| [chunk | chunk trouble | e |] response IH];
    try rewrite Hsame.
  - exists []. split; [constructor | left; split; reflexivity].
  - rewrite Hchunk.
    destruct (get_content chunk) as [e | [text |]].
    + exists []. split; [constructor | right; repeat split].
    + destruct (truthy text) eqn:Htext; [| exact IH].
      destruct IH as (texts & Hall & Hshape).
      exists (text :: texts). split; [constructor; assumption |].
      cbn [yield yielded printed finishes map app].
      destruct Hshape as [[Hy Hp] | (Hy & Hp & Hf)]; [left | right];
        rewrite Hy; repeat split; assumption.
    + exact IH.
  - rewrite Hchunk.
    destruct (get_content chunk) as [e | [text |]].
    + exists []. split; [constructor | right; repeat split].
    + destruct (truthy text) eqn:Htext; [| exact IH].
      destruct IH as (texts & Hall & Hshape).
      exists (text :: texts). split; [constructor; assumption |].
      cbn [yield yielded printed finishes map app].
      destruct Hshape as [[Hy Hp] | (Hy & Hp & Hf)]; [left | right];
        rewrite Hy; repeat split; assumption.
    + exact IH.
  - exists []. split; [constructor | right; repeat split].
  - exists []. split; [constructor | left; split; reflexivity].
Qed.

End GeneratorRunFacts.

Section GeneratorRunProperties.
Import Py OpenAI StreamingClient GeneratorRuns.
Variable svc : Request -> CreateResult.
Variables prompt model : string.

Local Abbreviation g := (stream_completion svc prompt model).

(** X21.  Whatever the service does, the generator yields only strings
    that are not empty, followed by at most one [None]; the [None] comes
    last and exactly together with the one error line it prints. *)
Theorem generator_yields_texts_then_none :
  exists texts,
    Forall (fun text => truthy text = true) texts
    /\ ((yielded g = map Some texts /\ printed g = [])
        \/ (yielded g = map Some texts ++ [None]
            /\ printed g = [(stream_error_message ++ LF)%string]
            /\ finishes g = true)).
Proof.
  unfold stream_completion.
  destruct (svc _) as [response | e |].
  - apply generator_shape.
  - exists []. split; [constructor | right; repeat split].
  - exists []. split; [constructor | left; split; reflexivity].
Qed.

(** X22.  An error in the middle of the stream ends the generator: after
    some text chunks, an item on which the channel raises, or a chunk
    whose content cannot be read (no choices, no delta), makes it print
    the error line, yield [None] and stop; whatever the service would
    have sent afterwards is never seen, and the consumer has echoed the
    text received so far. *)
Theorem generator_stops_at_first_error
        (frags : list string) (item : Item) (rest : list Item) :
  svc (mkRequest (Some model) prompt None true)
  = Response (map Deliver (map text_chunk frags) ++ item :: rest) ->
  interrupts item = true ->
  g = mkGenerated (map Some (filter truthy frags) ++ [None])
                  [(stream_error_message ++ LF)%string] true
  /\ echoed (yielded g) = join frags.
Proof.
  intros Hsvc Hint. unfold stream_completion. rewrite Hsvc.
  destruct (generator_on_leading_texts frags (item :: rest)) as (Hy & Hp & Hf).
  rewrite (generator_interrupted item rest Hint) in Hy, Hp, Hf.
  cbn [handler yielded printed finishes] in Hy, Hp, Hf.
  destruct (for_chunk_in (map Deliver (map text_chunk frags) ++ item :: rest))
    as [ys ps fin].
  cbn in Hy, Hp, Hf |- *. subst. split; [reflexivity |].
  assert (Hecho : forall values,
             echoed (values ++ [None]) = echoed values).
  { induction values as [| [text |] values IH]; cbn; [reflexivity | |];
      rewrite IH; reflexivity. }
  rewrite Hecho. apply echoed_truthy_pieces.
Qed.

(** X23.  This client sets no deadline: when the service goes silent
    after some text chunks, the generator has yielded their texts and
    never finishes. *)
Theorem generator_blocks_on_silence (frags : list string) (rest : list Item) :
  svc (mkRequest (Some model) prompt None true)
  = Response (map Deliver (map text_chunk frags) ++ Stall :: rest) ->
  g = mkGenerated (map Some (filter truthy frags)) [] false.
Proof.
  intros Hsvc. unfold stream_completion. rewrite Hsvc.
  destruct (generator_on_leading_texts frags (Stall :: rest)) as (Hy & Hp & Hf).
  cbn [for_chunk_in yielded printed finishes] in Hy, Hp, Hf.
  rewrite app_nil_r in Hy.
  destruct (for_chunk_in (map Deliver (map text_chunk frags) ++ Stall :: rest))
    as [ys ps fin].
  cbn in Hy, Hp, Hf. subst. reflexivity.
Qed.

End GeneratorRunProperties.

Section FurtherWitnesses.
Import Py OpenAI InferenceRequest RunnerRuns.

Lemma returned_text_is_in_the_file_witness :
  full_response
    (snd (create_completion (local_client hello_world) (Some "m"%string) "hi"
                            default_temperature true 60 used))
  = "Hello, world"%string
  /\ response_file
       (snd (create_completion (local_client hello_world) (Some "m"%string) "hi"
                               default_temperature true 60 used))
     = mkFile "Hello, world" EmptyString false.
Proof.
  apply (returned_text_is_in_the_file
           (local_client hello_world) (Some "m"%string) "hi"
           default_temperature true 60 used "Hello, world");
    reflexivity.
Defined.

Lemma calm_stream_keeps_sink_in_step_witness :
  Forall in_sync
         (consumption_states (local_client hel_then_stall) (Some "m"%string) "hi"
                             default_temperature true 60 used)
  /\ in_sync (snd (create_completion (local_client hel_then_stall)
                                     (Some "m"%string) "hi" default_temperature
                                     true 60 used)).
Proof.
  apply (calm_stream_keeps_sink_in_step
           (local_client hel_then_stall) (Some "m"%string) "hi"
           default_temperature true 60 used).
  reflexivity.
Defined.

(** With a timeout of 60 seconds: the alarm goes off while the first
    piece is being echoed, the inner handler swallows it, and the silence
    that follows blocks the call, and [main] with it. *)
Example swallowed_alarm_blocks_call :
  fst (create_completion (local_client alarm_lost_then_stall) (Some "m"%string)
                         "hi" default_temperature true 60 fresh)
  = Blocked
  /\ fst (main lost_alarm_env fresh) = Blocked.
Proof. split; reflexivity. Qed.

Lemma returned_call_releases_resources_witness :
  is_open
    (response_file
       (snd (create_completion (local_client hel_then_stall) (Some "m"%string)
                               "hi" default_temperature true 60 used)))
  = false
  /\ buffer
       (response_file
          (snd (create_completion (local_client hel_then_stall) (Some "m"%string)
                                  "hi" default_temperature true 60 used)))
     = EmptyString
  /\ (INT_MIN <= 60 <= INT_MAX ->
      alarm (snd (create_completion (local_client hel_then_stall)
                                    (Some "m"%string) "hi" default_temperature
                                    true 60 used))
      = None).
Proof.
  apply (returned_call_releases_resources
           (local_client hel_then_stall) (Some "m"%string) "hi"
           default_temperature true 60 used None).
  reflexivity.
Defined.


Lemma connection_failure_returns_none_witness :
  fst (create_completion (local_client unreachable) (Some "m"%string) "hi"
                         default_temperature true 60 fresh)
  = Returned None
  /\ response_file
       (snd (create_completion (local_client unreachable) (Some "m"%string) "hi"
                               default_temperature true 60 fresh))
     = mkFile EmptyString EmptyString false
  /\ pulls (snd (create_completion (local_client unreachable) (Some "m"%string)
                                   "hi" default_temperature true 60 fresh))
     = 0%nat
  /\ requests (snd (create_completion (local_client unreachable)
                                      (Some "m"%string) "hi" default_temperature
                                      true 60 fresh))
     = [mkRequest (Some "m"%string) "hi" (Some default_temperature) true].
Proof.
  apply (connection_failure_returns_none
           (local_client unreachable) (Some "m"%string) "hi"
           default_temperature true 60 fresh
           (OtherError "APIConnectionError" "Connection error.")).
  - unfold INT_MIN, INT_MAX. lia.
  - reflexivity.
Defined.


Lemma timeout_out_of_range_sends_nothing_witness :
  fst (create_completion (local_client hello_world) (Some "m"%string) "hi"
                         default_temperature true (2 ^ 31) used)
  = Returned None
  /\ requests (snd (create_completion (local_client hello_world)
                                      (Some "m"%string) "hi" default_temperature
                                      true (2 ^ 31) used))
     = requests used
  /\ pulls (snd (create_completion (local_client hello_world) (Some "m"%string)
                                   "hi" default_temperature true (2 ^ 31) used))
     = pulls used
  /\ response_file
       (snd (create_completion (local_client hello_world) (Some "m"%string) "hi"
                               default_temperature true (2 ^ 31) used))
     = mkFile EmptyString EmptyString false.
Proof.
  apply (timeout_out_of_range_sends_nothing
           (local_client hello_world) (Some "m"%string) "hi"
           default_temperature true (2 ^ 31) used).
  right. unfold INT_MAX. lia.
Defined.

Lemma missing_key_is_reported_witness :
  fst (main no_key_env used) = Returned None
  /\ requests (snd (main no_key_env used)) = requests used
  /\ response_file (snd (main no_key_env used)) = response_file used
  /\ In (Print ("Unexpected error: 'NoneType' object is not subscriptable" ++ LF))
        (log (snd (main no_key_env used))).
Proof.
  apply (missing_key_is_reported no_key_env used). reflexivity.
Defined.

Lemma main_sends_stripped_prompt_witness :
  requests (snd (main padded_prompt_env fresh))
  = [mkRequest (Some "test-model"%string) "Say hello"
               (Some default_temperature) default_stream].
Proof.
  apply (main_sends_stripped_prompt padded_prompt_env fresh
           "sk-test-0000" ("  Say hello " ++ LF)); reflexivity.
Defined.

Lemma unreadable_prompt_sends_nothing_witness :
  fst (main unreadable_prompt_env used) = Returned None
  /\ requests (snd (main unreadable_prompt_env used)) = requests used
  /\ response_file (snd (main unreadable_prompt_env used)) = response_file used
  /\ firstn 3 (log (snd (main unreadable_prompt_env used)))
     = [Print ("Error: Prompt is empty" ++ LF);
        PrintExc;
        Print (("Error reading prompt: " ++ "No such file or directory") ++ LF)].
Proof.
  apply (unreadable_prompt_sends_nothing unreadable_prompt_env used
           "sk-test-0000"
           (OtherError "FileNotFoundError" "No such file or directory"));
    reflexivity.
Defined.

Lemma generator_stops_at_first_error_witness :
  StreamingClient.stream_completion GeneratorRuns.hello_then_empty_choices
                                    "hi" "m"
  = StreamingClient.mkGenerated
      [Some "Hello"%string; None]
      [(StreamingClient.stream_error_message ++ LF)%string] true
  /\ StreamingClient.echoed
       (StreamingClient.yielded
          (StreamingClient.stream_completion
             GeneratorRuns.hello_then_empty_choices "hi" "m"))
     = "Hello"%string.
Proof.
  apply (generator_stops_at_first_error
           GeneratorRuns.hello_then_empty_choices "hi" "m"
           ["Hello"%string] (Deliver (ChunkObj []))
           [Deliver (text_chunk ", world")]);
    reflexivity.
Defined.

Lemma generator_blocks_on_silence_witness :
  StreamingClient.stream_completion hel_then_stall "hi" "m"
  = StreamingClient.mkGenerated [Some "Hel"%string] [] false.
Proof.
  apply (generator_blocks_on_silence hel_then_stall "hi" "m"
           ["Hel"%string] []).
  reflexivity.
Defined.

(** The same stream in the two clients: the runner passes over the chunk
    without choices and completes; the generator stops at it. *)
Example empty_choices_in_both_clients :
  fst (create_completion (local_client GeneratorRuns.hello_then_empty_choices)
                         (Some "m"%string) "hi" default_temperature true 60 fresh)
  = Returned (Some "Hello, world"%string)
  /\ StreamingClient.yielded
       (StreamingClient.stream_completion
          GeneratorRuns.hello_then_empty_choices "hi" "m")
     = [Some "Hello"%string; None].
Proof. split; reflexivity. Qed.

End FurtherWitnesses.
